(** * galera-healthcheck: the service manager

    A shallow embedding of [service_manager/service_manager.go]: the four
    lifecycle operations of [ServiceManager] and the readiness wait
    [waitForGaleraInit], as interaction trees over the calls the Go code
    makes to its collaborators (the filesystem, the monit client, the
    ticker, the HTTP client and the logger).  The collaborators are given
    meaning by a handler into a state monad over a [World] that holds the
    files and the history of calls; how they answer is an [Env] of
    oracles, so every theorem holds for every behaviour of the
    environment. *)

From stdpp Require Import base strings list gmap.
From ITree Require Import ITree ITreeFacts Events.State Events.StateFacts.
From Paco Require Import paco.
From Stdlib Require Import ZArith Lia.

Local Open Scope itree_scope.
Local Open Scope string_scope.

(** ITree's own notations clash with stdpp's levels; the two forms of
    bind the programs below use are declared here. *)
Notation "x <- call ;; rest" := (ITree.bind call (fun x => rest))
  (at level 100, call at next level, right associativity) : itree_scope.
Notation "call ;; rest" := (ITree.bind call (fun _ => rest))
  (at level 100, right associativity) : itree_scope.

(** ** Data *)

(** Go [error] values, as [github.com/pkg/errors] builds them.  A [nil]
    error is [None] in an [option error].  [errors_Errorf] keeps the
    format and its arguments apart instead of rendering the message. *)
Inductive error : Type :=
| errors_New (message : string)
| errors_Errorf (format : string) (args : list string)
| errors_Wrap (err : error) (message : string).

(** The fields of [http.Response] the code reads. *)
Record Response : Type := mkResponse {
  Status : string;
  StatusCode : Z;
}.

(** [http.StatusOK] *)
Definition StatusOK : Z := 200.

(** [time.Second], in nanoseconds as [time.Duration] counts. *)
Definition Second : Z := 1000000000.

(** [lager.Data]: the key/value pairs handed to the logger. *)
Definition Data : Type := list (string * string).

(** The configuration fields of [ServiceManager].  Its [MonitClient] and
    [Logger] fields are collaborators, reached through events. *)
Record ServiceManager : Type := mkServiceManager {
  ServiceName : string;
  StateFilePath : string;
  GaleraInitAddress : string;
}.

(** ** Calls to the collaborators *)

(** One event per call the code makes; the index is the type of the Go
    call's result. *)
Variant sysE : Type -> Type :=
| WriteFile (filename data : string) (perm : Z) : sysE (option error)
| MonitStart (serviceName : string) : sysE (option error)
| MonitStop (serviceName : string) : sysE (option error)
| MonitStatus (serviceName : string) : sysE (string * option error)
| NewTicker (d : Z) : sysE unit
| TickerRecv : sysE unit
| TickerStop : sysE unit
| HttpGet (timeout : Z) (url : string) : sysE (Response + error)
| LoggerInfo (action : string) (data : Data) : sysE unit
| LoggerError (action : string) (err : error) : sysE unit.

(** The same calls without their result type, as the history records
    them. *)
Inductive Call : Type :=
| CallWriteFile (filename data : string) (perm : Z)
| CallStart (serviceName : string)
| CallStop (serviceName : string)
| CallStatus (serviceName : string)
| CallNewTicker (d : Z)
| CallTick
| CallTickerStop
| CallGet (timeout : Z) (url : string)
| CallInfo (action : string) (data : Data)
| CallError (action : string) (err : error).

Definition is_WriteFile (c : Call) : bool :=
  match c with CallWriteFile _ _ _ => true | _ => false end.
Definition is_Start (c : Call) : bool :=
  match c with CallStart _ => true | _ => false end.
Definition is_Stop (c : Call) : bool :=
  match c with CallStop _ => true | _ => false end.
Definition is_Status (c : Call) : bool :=
  match c with CallStatus _ => true | _ => false end.
Definition is_Tick (c : Call) : bool :=
  match c with CallTick => true | _ => false end.
Definition is_Get (c : Call) : bool :=
  match c with CallGet _ _ => true | _ => false end.
Definition is_Error (c : Call) : bool :=
  match c with CallError _ _ => true | _ => false end.
Definition is_NewTicker (c : Call) : bool :=
  match c with CallNewTicker _ => true | _ => false end.
Definition is_TickerStop (c : Call) : bool :=
  match c with CallTickerStop => true | _ => false end.

(** How many calls of a kind a history holds. *)
Fixpoint calls (p : Call -> bool) (h : list Call) : nat :=
  match h with
  | [] => 0
  | c :: h' => (if p c then 1 else 0) + calls p h'
  end.

(** ** The world and the environment *)

(** The files by path, and every call made so far, oldest first. *)
Record World : Type := mkWorld {
  files : gmap string string;
  history : list Call;
}.

Definition writes (w : World) : nat := calls is_WriteFile (history w).
Definition starts (w : World) : nat := calls is_Start (history w).
Definition stops (w : World) : nat := calls is_Stop (history w).
Definition status_queries (w : World) : nat := calls is_Status (history w).
Definition ticks (w : World) : nat := calls is_Tick (history w).
Definition probes (w : World) : nat := calls is_Get (history w).
Definition logged_errors (w : World) : nat := calls is_Error (history w).

(** [log w cs]: the world after the calls [cs], the files as they were. *)
Definition log (w : World) (cs : list Call) : World :=
  {| files := files w; history := history w ++ cs |}.

(** What [ioutil.WriteFile] can answer.  After a failed write the file
    holds what the environment left there ([None]: there is no file). *)
Inductive WriteResult : Type :=
| WriteOk
| WriteErr (err : error) (remains : option string).

(** The answers of the collaborators.  The first argument of each oracle
    is the number of earlier calls to the same operation, so an [Env] is
    any script of answers. *)
Record Env : Type := mkEnv {
  os_WriteFile : nat -> string -> string -> Z -> WriteResult;
  monit_Start : nat -> string -> option error;
  monit_Stop : nat -> string -> option error;
  monit_Status : nat -> string -> string * option error;
  http_Get : nat -> Z -> string -> Response + error;
}.

(** The effect of one call on the world, and its answer. *)
Definition respond (env : Env) {T : Type} (e : sysE T) (w : World) : World * T :=
  match e in sysE T return World * T with
  | WriteFile f d p =>
      match os_WriteFile env (writes w) f d p with
      | WriteOk =>
          ({| files := <[f := d]> (files w);
              history := history w ++ [CallWriteFile f d p] |}, None)
      | WriteErr err remains =>
          ({| files := match remains with
                       | Some s => <[f := s]> (files w)
                       | None => delete f (files w)
                       end;
              history := history w ++ [CallWriteFile f d p] |}, Some err)
      end
  | MonitStart n => (log w [CallStart n], monit_Start env (starts w) n)
  | MonitStop n => (log w [CallStop n], monit_Stop env (stops w) n)
  | MonitStatus n => (log w [CallStatus n], monit_Status env (status_queries w) n)
  | NewTicker d => (log w [CallNewTicker d], tt)
  | TickerRecv => (log w [CallTick], tt)
  | TickerStop => (log w [CallTickerStop], tt)
  | HttpGet t u => (log w [CallGet t u], http_Get env (probes w) t u)
  | LoggerInfo a d => (log w [CallInfo a d], tt)
  | LoggerError a e => (log w [CallError a e], tt)
  end.

Definition handle (env : Env) : sysE ~> Monads.stateT World (itree void1) :=
  fun T e w => Ret (respond env e w).

(** [run env t w]: the program [t] run from the world [w]. *)
Definition run (env : Env) {R : Type} (t : itree sysE R) (w : World)
  : itree void1 (World * R) :=
  interp_state (handle env) t w.

(** [result_within n t]: the result of [t] when it returns within [n]
    silent steps, by evaluation. *)
Fixpoint result_within {R : Type} (n : nat) (t : itree void1 R) : option R :=
  match observe t with
  | RetF r => Some r
  | TauF t' =>
      match n with
      | 0 => None
      | S n' => result_within n' t'
      end
  | VisF e _ => match e with end
  end.

(** ** Loops without calls *)

(** [loop_fuel f n s]: at most [n] turns of the loop whose turn is [f],
    from [s]; [None] when the loop has not returned by then. *)
Fixpoint loop_fuel {St R : Type} (f : St -> St + R) (n : nat) (s : St) : option R :=
  match n with
  | 0 => None
  | S n' =>
      match f s with
      | inl s' => loop_fuel f n' s'
      | inr r => Some r
      end
  end.

(** The same loop as an interaction tree. *)
Definition pure_loop {E : Type -> Type} {St R : Type} (f : St -> St + R) (s : St)
  : itree E R :=
  ITree.iter (fun s => Ret (f s)) s.

(** ** A node to run the operations on *)

Definition mysql : ServiceManager :=
  mkServiceManager "mysql" "/var/vcap/store/mysql/state.txt" "127.0.0.1:8114".

Definition garbd : ServiceManager :=
  mkServiceManager "garbd" "/var/vcap/store/garbd/state.txt" "127.0.0.1:8114".

(** No file, no call yet. *)
Definition fresh : World := mkWorld ∅ [].

Definition timed_out : error := errors_New "context deadline exceeded".
Definition refused : error := errors_New "connection refused".
Definition disk_full : error := errors_New "no space left on device".
Definition monit_down : error := errors_New "monit is not reachable".

Definition ok200 : Response := mkResponse "200 OK" 200.
Definition unavailable503 : Response := mkResponse "503 Service Unavailable" 503.

(** An environment from one answer to every write, start and stop, and a
    script of the answers to the status queries and to the probes. *)
Definition scripted (write : WriteResult) (start stop : option error)
    (status : nat -> string * option error) (get : nat -> Response + error) : Env :=
  mkEnv (fun _ _ _ _ => write) (fun _ _ => start) (fun _ _ => stop)
        (fun n _ => status n) (fun n _ _ => get n).

Definition always_running : nat -> string * option error :=
  fun _ => ("running", None).

(** The endpoint times out once, then answers 200. *)
Definition comes_up : Env :=
  scripted WriteOk None None always_running
    (fun n => match n with 0 => inr timed_out | _ => inl ok200 end).

(** The endpoint answers 200 at once. *)
Definition is_up : Env :=
  scripted WriteOk None None always_running (fun _ => inl ok200).

(** The endpoint refuses twice, then answers 503. *)
Definition not_synced : Env :=
  scripted WriteOk None None always_running
    (fun n => match n with 0 | 1 => inr refused | _ => inl unavailable503 end).

(** The service is running on the first tick and stopped on the second. *)
Definition crashes : Env :=
  scripted WriteOk None None
    (fun n => match n with 0 => ("running", None) | _ => ("stopped", None) end)
    (fun _ => inr refused).

(** Monit answers two status queries and fails the third. *)
Definition monit_goes_away : Env :=
  scripted WriteOk None None
    (fun n => match n with 0 | 1 => ("running", None) | _ => ("", Some monit_down) end)
    (fun _ => inr refused).

(** The state file cannot be written. *)
Definition read_only_disk : Env :=
  scripted (WriteErr disk_full None) None None always_running (fun _ => inl ok200).

(** The endpoint never listens. *)
Definition never_listens : Env :=
  scripted WriteOk None None always_running (fun _ => inr refused).

(** Monit refuses to start the service. *)
Definition start_refused : Env :=
  scripted WriteOk (Some monit_down) None always_running (fun _ => inl ok200).

(** Monit refuses to stop the service. *)
Definition stop_refused : Env :=
  scripted WriteOk None (Some monit_down) always_running (fun _ => inl ok200).

(** ** The service manager *)

Section ServiceManager.

(** [monit_client.ServiceRunning], the status monit reports for a running
    service.  The [monit_client] package is not among the sources, so the
    constant is a parameter of the development. *)
Variable ServiceRunning : string.

(** The permission bits [0777] of the state file. *)
Definition state_file_perm : Z := 511.

(** One turn of the [for] loop of [waitForGaleraInit], after a tick has
    arrived: [inl tt] is [continue], [inr err] is [return err]. *)
Definition waitForGaleraInit_tick (m : ServiceManager)
  : itree sysE (unit + option error) :=
  ITree.trigger TickerRecv ;;
  r <- ITree.trigger (MonitStatus (ServiceName m)) ;;
  let '(status, err) := r in
  match err with
  | Some _ =>
      Ret (inr (Some (errors_Errorf "error fetching status for service %q"
                                    [ServiceName m])))
  | None =>
      ITree.trigger (LoggerInfo "check-monit-state"
                       [("service", ServiceName m); ("state", status)]) ;;
      if negb (String.eqb status ServiceRunning) then
        Ret (inr (Some (errors_New "job failed during startup")))
      else
        ITree.trigger (LoggerInfo "check-galera-init" []) ;;
        got <- ITree.trigger (HttpGet (1 * Second)
                                (String.append "http://" (GaleraInitAddress m))) ;;
        match got with
        | inr err =>
            ITree.trigger (LoggerError "check-galera-init" err) ;;
            Ret (inl tt)
        | inl res =>
            ITree.trigger (LoggerInfo "check-galera-init"
                             [("status", Status res)]) ;;
            if negb (Z.eqb (StatusCode res) StatusOK) then
              Ret (inr (Some (errors_Errorf "unexpected response from node: %v"
                                            [Status res])))
            else
              Ret (inr None)
        end
  end.

Definition waitForGaleraInit (m : ServiceManager) : itree sysE (option error) :=
  ITree.trigger (NewTicker (1 * Second)) ;;
  err <- ITree.iter (fun _ : unit => waitForGaleraInit_tick m) tt ;;
  ITree.trigger TickerStop ;;
  Ret err.

Definition StartServiceBootstrap (m : ServiceManager)
  : itree sysE (string * option error) :=
  if String.eqb (ServiceName m) "garbd" then
    Ret ("", Some (errors_New "bootstrapping arbitrator not allowed"))
  else
    err <- ITree.trigger (WriteFile (StateFilePath m) "NEEDS_BOOTSTRAP" state_file_perm) ;;
    match err with
    | Some err => Ret ("", Some (errors_Wrap err "failed to initialize state file"))
    | None =>
        err <- ITree.trigger (MonitStart (ServiceName m)) ;;
        match err with
        | Some err => Ret ("", Some err)
        | None =>
            err <- waitForGaleraInit m ;;
            match err with
            | Some err => Ret ("", Some err)
            | None => Ret ("cluster bootstrap successful", None)
            end
        end
    end.

Definition StartServiceJoin (m : ServiceManager)
  : itree sysE (string * option error) :=
  err <- ITree.trigger (WriteFile (StateFilePath m) "CLUSTERED" state_file_perm) ;;
  match err with
  | Some err => Ret ("", Some (errors_Wrap err "failed to initialize state file"))
  | None =>
      err <- ITree.trigger (MonitStart (ServiceName m)) ;;
      match err with
      | Some err => Ret ("", Some err)
      | None =>
          err <- waitForGaleraInit m ;;
          match err with
          | Some err => Ret ("", Some err)
          | None => Ret ("join cluster successful", None)
          end
      end
  end.

Definition StartServiceSingleNode (m : ServiceManager)
  : itree sysE (string * option error) :=
  err <- ITree.trigger (WriteFile (StateFilePath m) "SINGLE_NODE" state_file_perm) ;;
  match err with
  | Some err => Ret ("", Some (errors_Wrap err "failed to initialize state file"))
  | None =>
      err <- ITree.trigger (MonitStart (ServiceName m)) ;;
      match err with
      | Some err => Ret ("", Some err)
      | None =>
          err <- waitForGaleraInit m ;;
          match err with
          | Some err => Ret ("", Some err)
          | None => Ret ("single node start successful", None)
          end
      end
  end.

Definition StopService (m : ServiceManager) : itree sysE (string * option error) :=
  err <- ITree.trigger (MonitStop (ServiceName m)) ;;
  match err with
  | Some err => Ret ("", Some err)
  | None => Ret ("stop successful", None)
  end.

Definition GetStatus (m : ServiceManager) : itree sysE (string * option error) :=
  ITree.trigger (MonitStatus (ServiceName m)).

(** *** The start operations by intent *)

(** The three intents that start the service; [Stop] has its own
    operation. *)
Inductive StartIntent : Type := Bootstrap | Join | SingleNode.

Definition StartService (i : StartIntent) (m : ServiceManager)
  : itree sysE (string * option error) :=
  match i with
  | Bootstrap => StartServiceBootstrap m
  | Join => StartServiceJoin m
  | SingleNode => StartServiceSingleNode m
  end.

(** The Declared State Marker and the success message of each intent, as
    the specification lists them. *)
Definition marker (i : StartIntent) : string :=
  match i with
  | Bootstrap => "NEEDS_BOOTSTRAP"
  | Join => "CLUSTERED"
  | SingleNode => "SINGLE_NODE"
  end.

Definition success_message (i : StartIntent) : string :=
  match i with
  | Bootstrap => "cluster bootstrap successful"
  | Join => "join cluster successful"
  | SingleNode => "single node start successful"
  end.

(** Every intent is open to every service, except [Bootstrap] to the
    arbitrator. *)
Definition permitted (i : StartIntent) (m : ServiceManager) : Prop :=
  i = Bootstrap -> ServiceName m <> "garbd".

(** *** The failures of the specification, as the errors of the code *)

Definition InvalidIntent : error :=
  errors_New "bootstrapping arbitrator not allowed".
Definition PersistenceFailure (cause : error) : error :=
  errors_Wrap cause "failed to initialize state file".
Definition StatusQueryFailed (m : ServiceManager) : error :=
  errors_Errorf "error fetching status for service %q" [ServiceName m].
Definition ProcessNotRunning : error :=
  errors_New "job failed during startup".
Definition ReadinessRejected (res : Response) : error :=
  errors_Errorf "unexpected response from node: %v" [Status res].

(** *** The signals of a tick *)

Definition readiness_url (m : ServiceManager) : string :=
  String.append "http://" (GaleraInitAddress m).

(** What monit and the readiness endpoint answer on tick [k] (from 0) of
    a wait that starts in the world [w], every earlier tick having asked
    both once. *)
Definition status_at (env : Env) (m : ServiceManager) (w : World) (k : nat)
  : string * option error :=
  monit_Status env (status_queries w + k) (ServiceName m).

Definition probe_at (env : Env) (m : ServiceManager) (w : World) (k : nat)
  : Response + error :=
  http_Get env (probes w + k) (1 * Second) (readiness_url m).

(** The first [length errs] ticks find the service running and the
    endpoint unreachable, with the errors [errs] in turn. *)
Definition transient_ticks (env : Env) (m : ServiceManager) (w : World)
    (errs : list error) : Prop :=
  forall k e, errs !! k = Some e ->
    status_at env m w k = (ServiceRunning, None) /\ probe_at env m w k = inr e.

(** The calls of a tick, by how it goes. *)
Definition transient_calls (m : ServiceManager) (e : error) : list Call :=
  [CallTick; CallStatus (ServiceName m);
   CallInfo "check-monit-state" [("service", ServiceName m); ("state", ServiceRunning)];
   CallInfo "check-galera-init" [];
   CallGet (1 * Second) (readiness_url m);
   CallError "check-galera-init" e].

Definition status_failed_calls (m : ServiceManager) : list Call :=
  [CallTick; CallStatus (ServiceName m)].

Definition not_running_calls (m : ServiceManager) (status : string) : list Call :=
  [CallTick; CallStatus (ServiceName m);
   CallInfo "check-monit-state" [("service", ServiceName m); ("state", status)]].

Definition response_calls (m : ServiceManager) (res : Response) : list Call :=
  [CallTick; CallStatus (ServiceName m);
   CallInfo "check-monit-state" [("service", ServiceName m); ("state", ServiceRunning)];
   CallInfo "check-galera-init" [];
   CallGet (1 * Second) (readiness_url m);
   CallInfo "check-galera-init" [("status", Status res)]].

(** [decisive m status probe cs err]: a tick with these two signals ends
    the wait with [err] after the calls [cs].  The four cases are the
    terminal conditions of the Readiness Wait Protocol. *)
Inductive decisive (m : ServiceManager)
  : string * option error -> Response + error -> list Call -> option error -> Prop :=
| status_query_failed status e probe :
    decisive m (status, Some e) probe
      (status_failed_calls m) (Some (StatusQueryFailed m))
| process_not_running status probe :
    status <> ServiceRunning ->
    decisive m (status, None) probe
      (not_running_calls m status) (Some ProcessNotRunning)
| readiness_rejected res :
    StatusCode res <> StatusOK ->
    decisive m (ServiceRunning, None) (inl res)
      (response_calls m res) (Some (ReadinessRejected res))
| readiness_confirmed res :
    StatusCode res = StatusOK ->
    decisive m (ServiceRunning, None) (inl res)
      (response_calls m res) None.

(** All the calls of a wait: the ticker is made, [errs] transient ticks
    pass, the tick with the calls [last] decides, the ticker is stopped. *)
Definition wait_calls (m : ServiceManager) (errs : list error) (last : list Call)
  : list Call :=
  CallNewTicker (1 * Second)
    :: (flat_map (transient_calls m) errs ++ last ++ [CallTickerStop])%list.

(** Within every tick of a history, the readiness endpoint is asked only
    after monit has been; [queried] tells whether monit has been asked
    since the last tick. *)
Fixpoint probe_guarded (queried : bool) (h : list Call) : bool :=
  match h with
  | [] => true
  | CallTick :: h' => probe_guarded false h'
  | CallStatus _ :: h' => probe_guarded true h'
  | CallGet _ _ :: h' => queried && probe_guarded queried h'
  | _ :: h' => probe_guarded queried h'
  end.

(** [addressed i m c]: the call [c] is one a start operation of intent
    [i] on [m] makes: to the service, the state file and the endpoint of
    [m], with the marker of [i], the permissions and the periods of the
    code; a stop command is none of them. *)
Definition addressed (i : StartIntent) (m : ServiceManager) (c : Call) : Prop :=
  match c with
  | CallWriteFile f d p =>
      f = StateFilePath m /\ d = marker i /\ p = state_file_perm
  | CallStart n => n = ServiceName m
  | CallStatus n => n = ServiceName m
  | CallStop _ => False
  | CallNewTicker d => d = (1 * Second)%Z
  | CallGet t u => t = (1 * Second)%Z /\ u = readiness_url m
  | CallTick => True
  | CallTickerStop => True
  | CallInfo _ _ => True
  | CallError _ _ => True
  end.

(** *** One tick as a function on worlds *)

(** What [waitForGaleraInit_tick] computes, call by call; [tick_run]
    below proves it. *)
Definition tick_result (env : Env) (m : ServiceManager) (w : World)
  : World * (unit + option error) :=
  let name := ServiceName m in
  let '(status, err) := monit_Status env (status_queries w) name in
  match err with
  | Some _ =>
      (log w [CallTick; CallStatus name],
       inr (Some (errors_Errorf "error fetching status for service %q" [name])))
  | None =>
      if negb (String.eqb status ServiceRunning) then
        (log w [CallTick; CallStatus name;
                CallInfo "check-monit-state" [("service", name); ("state", status)]],
         inr (Some (errors_New "job failed during startup")))
      else
        match http_Get env (probes w) (1 * Second) (readiness_url m) with
        | inr e =>
            (log w [CallTick; CallStatus name;
                    CallInfo "check-monit-state" [("service", name); ("state", status)];
                    CallInfo "check-galera-init" [];
                    CallGet (1 * Second) (readiness_url m);
                    CallError "check-galera-init" e], inl tt)
        | inl res =>
            (log w [CallTick; CallStatus name;
                    CallInfo "check-monit-state" [("service", name); ("state", status)];
                    CallInfo "check-galera-init" [];
                    CallGet (1 * Second) (readiness_url m);
                    CallInfo "check-galera-init" [("status", Status res)]],
             inr (if negb (Z.eqb (StatusCode res) StatusOK)
                  then Some (errors_Errorf "unexpected response from node: %v"
                                           [Status res])
                  else None))
        end
  end.

Definition tick_step (env : Env) (m : ServiceManager) (w : World)
  : World + World * option error :=
  match tick_result env m w with
  | (w1, inl _) => inl w1
  | (w1, inr err) => inr (w1, err)
  end.

(** *** The worlds a start operation passes through *)

Definition marker_write (i : StartIntent) (m : ServiceManager) : Call :=
  CallWriteFile (StateFilePath m) (marker i) state_file_perm.

Definition write_answer (env : Env) (i : StartIntent) (m : ServiceManager) (w : World)
  : WriteResult :=
  os_WriteFile env (writes w) (StateFilePath m) (marker i) state_file_perm.

Definition start_answer (env : Env) (m : ServiceManager) (w : World) : option error :=
  monit_Start env (starts w) (ServiceName m).

Definition write_failed (i : StartIntent) (m : ServiceManager) (remains : option string)
    (w : World) : World :=
  {| files := match remains with
              | Some s => <[StateFilePath m := s]> (files w)
              | None => delete (StateFilePath m) (files w)
              end;
     history := history w ++ [marker_write i m] |}.

Definition written (i : StartIntent) (m : ServiceManager) (w : World) : World :=
  {| files := <[StateFilePath m := marker i]> (files w);
     history := history w ++ [marker_write i m] |}.

Definition started (i : StartIntent) (m : ServiceManager) (w : World) : World :=
  log (written i m w) [CallStart (ServiceName m)].

Definition start_result (i : StartIntent) (err : option error) : string * option error :=
  match err with
  | Some err => ("", Some err)
  | None => (success_message i, None)
  end.

(** [start_outcome env i m w w' r]: the ways a permitted start operation
    returns, from the world [w], in the world [w'] with the result [r]. *)
Inductive start_outcome (env : Env) (i : StartIntent) (m : ServiceManager) (w : World)
  : World -> string * option error -> Prop :=
| outcome_write_failed err remains :
    write_answer env i m w = WriteErr err remains ->
    start_outcome env i m w
      (write_failed i m remains w) ("", Some (PersistenceFailure err))
| outcome_start_failed err :
    write_answer env i m w = WriteOk ->
    start_answer env m w = Some err ->
    start_outcome env i m w (started i m w) ("", Some err)
| outcome_waited errs last err :
    write_answer env i m w = WriteOk ->
    start_answer env m w = None ->
    transient_ticks env m w errs ->
    decisive m (status_at env m w (length errs)) (probe_at env m w (length errs))
      last err ->
    start_outcome env i m w
      (log (started i m w) (wait_calls m errs last)) (start_result i err).

(** ** Worlds and counts *)

Lemma calls_app p h1 h2 : calls p (h1 ++ h2) = calls p h1 + calls p h2.
Proof. induction h1 as [|c h1 IH]; simpl; [reflexivity | rewrite IH; lia]. Qed.

Lemma count_log p w cs :
  calls p (history (log w cs)) = calls p (history w) + calls p cs.
Proof. unfold log; simpl. apply calls_app. Qed.

Lemma log_log w cs1 cs2 : log (log w cs1) cs2 = log w (cs1 ++ cs2).
Proof. unfold log; simpl. f_equal. symmetry. apply app_assoc. Qed.

Lemma calls_transient p m c errs :
  (forall e, calls p (transient_calls m e) = c) ->
  calls p (flat_map (transient_calls m) errs) = length errs * c.
Proof.
  intros Hc. induction errs as [|e errs IH]; [reflexivity|].
  change (flat_map (transient_calls m) (e :: errs))
    with (transient_calls m e ++ flat_map (transient_calls m) errs)%list.
  rewrite calls_app, Hc, IH. simpl. lia.
Qed.

Ltac world_simpl :=
  repeat rewrite log_log;
  unfold writes, starts, stops, status_queries, ticks, probes, logged_errors,
    started, written, write_failed, marker_write;
  repeat rewrite count_log;
  cbn [history files];
  unfold wait_calls, transient_calls, status_failed_calls, not_running_calls,
    response_calls;
  repeat rewrite calls_app;
  cbn [calls is_WriteFile is_Start is_Stop is_Status is_Tick is_Get is_Error
       app Nat.add];
  repeat rewrite Nat.add_0_r.

(** The count of one kind of call after a whole wait. *)
Ltac count_wait :=
  unfold writes, starts, stops, status_queries, ticks, probes, logged_errors,
    started, written, write_failed, marker_write;
  repeat rewrite count_log; cbn [history];
  unfold wait_calls;
  repeat (rewrite calls_app || (cbn [calls]; rewrite calls_app));
  repeat (erewrite calls_transient by (intros; simpl; reflexivity));
  unfold status_failed_calls, not_running_calls, response_calls;
  simpl; lia.

(** ** Running programs *)

Lemma run_ret env {R} (r : R) w : run env (Ret r) w ≈ Ret (w, r).
Proof. unfold run. rewrite interp_state_ret. reflexivity. Qed.

Lemma run_trigger env {T} (e : sysE T) w :
  run env (ITree.trigger e) w ≈ Ret (respond env e w).
Proof. unfold run. rewrite interp_state_trigger. reflexivity. Qed.

Lemma run_bind env {A B} (t : itree sysE A) (k : A -> itree sysE B) w :
  run env (ITree.bind t k) w
  ≈ ITree.bind (run env t w) (fun wa => run env (k (snd wa)) (fst wa)).
Proof. unfold run. rewrite interp_state_bind. reflexivity. Qed.

(** A call followed by the rest of the program. *)
Lemma run_call env {T B} (e : sysE T) (k : T -> itree sysE B) w :
  run env (ITree.bind (ITree.trigger e) k) w
  ≈ run env (k (snd (respond env e w))) (fst (respond env e w)).
Proof. rewrite run_bind, run_trigger, bind_ret_l. reflexivity. Qed.

Lemma result_within_sound {R : Type} n : forall (t : itree void1 R) r,
  result_within n t = Some r -> t ≈ Ret r.
Proof.
  induction n as [|n IH]; intros t r H; simpl in H;
    destruct (observe t) as [r'|t'|X e k] eqn:Ho; try discriminate; try destruct e.
  - injection H as ->. rewrite (itree_eta t), Ho. reflexivity.
  - injection H as ->. rewrite (itree_eta t), Ho. reflexivity.
  - rewrite (itree_eta t), Ho, tau_eutt. apply IH, H.
Qed.

Lemma bind_spin {E : Type -> Type} {A B : Type} (k : A -> itree E B) :
  ITree.bind ITree.spin k ≈ ITree.spin.
Proof.
  pcofix CIH. pfold. red. cbn. constructor. right. exact CIH.
Qed.

(** ** Loops without calls: returning is running out of turns *)

Section PureLoop.
Context {E : Type -> Type} {St R : Type} (f : St -> St + R).

Lemma observe_pure_loop s :
  observe (pure_loop (E := E) f s)
  = match f s with
    | inl s' => TauF (pure_loop f s')
    | inr r => RetF r
    end.
Proof.
  unfold pure_loop. unfold ITree.iter at 1. unfold observe at 1. cbn.
  destruct (f s); reflexivity.
Qed.

Lemma pure_loop_returns n : forall s r,
  loop_fuel f n s = Some r -> pure_loop (E := E) f s ≈ Ret r.
Proof.
  induction n as [|n IH]; intros s r H; simpl in H; [discriminate|].
  unfold pure_loop. rewrite unfold_iter, bind_ret_l.
  destruct (f s) as [s'|r'].
  - rewrite tau_eutt. apply IH, H.
  - injection H as ->. reflexivity.
Qed.

Lemma pure_loop_returns_inv s r :
  pure_loop (E := E) f s ≈ Ret r -> exists n, loop_fuel f n s = Some r.
Proof.
  intros H. punfold H. red in H.
  remember (observe (pure_loop f s)) as ot eqn:Hot.
  remember (observe (Ret r : itree E R)) as oret eqn:Horet.
  revert s Hot Horet.
  induction H; intros s Hot Horet; try discriminate;
    rewrite observe_pure_loop in Hot;
    destruct (f s) as [s'|r'] eqn:Hf; try discriminate.
  - (* the loop returns at once *)
    exists 1. simpl. rewrite Hf. cbn in Horet. congruence.
  - (* the loop takes one more turn *)
    injection Hot as ->.
    destruct (IHeqitF s' eq_refl Horet) as [n Hn].
    exists (S n). simpl. rewrite Hf. exact Hn.
Qed.

Lemma pure_loop_spins : forall s,
  (forall n, loop_fuel f n s = None) -> pure_loop (E := E) f s ≈ ITree.spin.
Proof.
  pcofix CIH. intros s H.
  pfold. red. rewrite observe_pure_loop.
  destruct (f s) as [s'|r'] eqn:Hf.
  - cbn. constructor. right. apply CIH.
    intros n. specialize (H (S n)). simpl in H. rewrite Hf in H. exact H.
  - specialize (H 1). simpl in H. rewrite Hf in H. discriminate.
Qed.
End PureLoop.

(** ** One tick *)

Lemma tick_run env m w :
  run env (waitForGaleraInit_tick m) w ≈ Ret (tick_result env m w).
Proof.
  unfold waitForGaleraInit_tick, tick_result.
  rewrite run_call. cbn [respond fst snd].
  rewrite run_call. cbn [respond fst snd].
  world_simpl.
  destruct (monit_Status env (calls is_Status (history w)) (ServiceName m))
    as [status [err|]].
  - rewrite run_ret. reflexivity.
  - rewrite run_call. cbn [respond fst snd]. world_simpl.
    destruct (negb (status =? ServiceRunning)).
    + rewrite run_ret. reflexivity.
    + rewrite run_call. cbn [respond fst snd].
      rewrite run_call. cbn [respond fst snd]. world_simpl.
      fold (readiness_url m).
      destruct (http_Get env (calls is_Get (history w)) (1 * Second) (readiness_url m))
        as [res|e].
      * rewrite run_call. cbn [respond fst snd]. world_simpl.
        destruct (negb (StatusCode res =? StatusOK)%Z); rewrite run_ret; reflexivity.
      * rewrite run_call. cbn [respond fst snd]. world_simpl.
        rewrite run_ret. reflexivity.
Qed.

Lemma tick_step_transient env m w e :
  status_at env m w 0 = (ServiceRunning, None) ->
  probe_at env m w 0 = inr e ->
  tick_step env m w = inl (log w (transient_calls m e)).
Proof.
  unfold status_at, probe_at, tick_step, tick_result.
  rewrite !Nat.add_0_r. intros -> ->.
  rewrite String.eqb_refl. reflexivity.
Qed.

Lemma tick_step_decisive env m w last r :
  decisive m (status_at env m w 0) (probe_at env m w 0) last r ->
  tick_step env m w = inr (log w last, r).
Proof.
  unfold status_at, probe_at, tick_step, tick_result.
  rewrite !Nat.add_0_r.
  generalize (monit_Status env (status_queries w) (ServiceName m))
             (http_Get env (probes w) (1 * Second) (readiness_url m)).
  intros st pr H. destruct H as [status e probe|status probe Hne|res Hc|res Hc].
  - reflexivity.
  - apply String.eqb_neq in Hne. rewrite Hne. reflexivity.
  - rewrite String.eqb_refl. simpl.
    apply Z.eqb_neq in Hc. rewrite Hc. reflexivity.
  - rewrite String.eqb_refl. simpl.
    rewrite Hc, Z.eqb_refl. reflexivity.
Qed.

(** A tick is transient or decisive, by its two signals. *)
Lemma tick_step_cases env m w :
  (exists e, status_at env m w 0 = (ServiceRunning, None)
             /\ probe_at env m w 0 = inr e
             /\ tick_step env m w = inl (log w (transient_calls m e)))
  \/ (exists last r, decisive m (status_at env m w 0) (probe_at env m w 0) last r
                     /\ tick_step env m w = inr (log w last, r)).
Proof.
  destruct (status_at env m w 0) as [status [e|]] eqn:Hs.
  - right. eexists _, _. split; [constructor|].
    apply tick_step_decisive. rewrite Hs. constructor.
  - destruct (String.eqb_spec status ServiceRunning) as [->|Hne].
    + destruct (probe_at env m w 0) as [res|e] eqn:Hp.
      * right. destruct (Z.eq_dec (StatusCode res) StatusOK) as [Hc|Hc].
        -- eexists _, _. split; [apply readiness_confirmed, Hc|].
           apply tick_step_decisive. rewrite Hs, Hp. apply readiness_confirmed, Hc.
        -- eexists _, _. split; [apply readiness_rejected, Hc|].
           apply tick_step_decisive. rewrite Hs, Hp. apply readiness_rejected, Hc.
      * left. exists e. split; [reflexivity|]. split; [reflexivity|].
        apply tick_step_transient; assumption.
    + right. eexists _, _. split; [apply process_not_running, Hne|].
      apply tick_step_decisive. rewrite Hs. apply process_not_running, Hne.
Qed.

(** After a transient tick, tick [k] is what tick [S k] was. *)
Lemma status_at_shift env m w e k :
  status_at env m (log w (transient_calls m e)) k = status_at env m w (S k).
Proof. unfold status_at. world_simpl. f_equal. lia. Qed.

Lemma probe_at_shift env m w e k :
  probe_at env m (log w (transient_calls m e)) k = probe_at env m w (S k).
Proof. unfold probe_at. world_simpl. f_equal. lia. Qed.

Lemma transient_ticks_tail env m w e errs :
  transient_ticks env m w (e :: errs) ->
  transient_ticks env m (log w (transient_calls m e)) errs.
Proof.
  intros H k e' Hk. rewrite status_at_shift, probe_at_shift.
  apply (H (S k) e'). exact Hk.
Qed.

(** ** The loop, turn by turn *)

Lemma loop_fuel_decisive env m errs : forall w last r,
  transient_ticks env m w errs ->
  decisive m (status_at env m w (length errs)) (probe_at env m w (length errs)) last r ->
  loop_fuel (tick_step env m) (S (length errs)) w
  = Some (log w (flat_map (transient_calls m) errs ++ last), r).
Proof.
  induction errs as [|e errs IH]; intros w last r Ht Hd.
  - simpl. rewrite (tick_step_decisive _ _ _ _ _ Hd). reflexivity.
  - destruct (Ht 0 e eq_refl) as [Hs Hp].
    change (loop_fuel (tick_step env m) (S (length (e :: errs))) w)
      with (match tick_step env m w with
            | inl w1 => loop_fuel (tick_step env m) (S (length errs)) w1
            | inr r => Some r
            end).
    rewrite (tick_step_transient _ _ _ _ Hs Hp).
    rewrite (IH (log w (transient_calls m e)) last r).
    + rewrite log_log.
      change (flat_map (transient_calls m) (e :: errs))
        with (transient_calls m e ++ flat_map (transient_calls m) errs)%list.
      rewrite <- app_assoc. reflexivity.
    + apply transient_ticks_tail, Ht.
    + rewrite status_at_shift, probe_at_shift. exact Hd.
Qed.

Lemma loop_fuel_inv env m n : forall w w' r,
  loop_fuel (tick_step env m) n w = Some (w', r) ->
  exists errs last,
    transient_ticks env m w errs
    /\ decisive m (status_at env m w (length errs)) (probe_at env m w (length errs)) last r
    /\ w' = log w (flat_map (transient_calls m) errs ++ last).
Proof.
  induction n as [|n IH]; intros w w' r H; simpl in H; [discriminate|].
  destruct (tick_step_cases env m w) as [(e & Hs & Hp & Hstep)|(last & r' & Hd & Hstep)];
    rewrite Hstep in H.
  - destruct (IH _ _ _ H) as (errs & last & Ht & Hd & ->).
    exists (e :: errs), last. split; [|split].
    + intros [|k] e' Hk; simpl in Hk.
      * injection Hk as <-. split; assumption.
      * rewrite <- status_at_shift with (e := e), <- probe_at_shift with (e := e).
        apply Ht, Hk.
    + simpl length. rewrite <- status_at_shift with (e := e), <- probe_at_shift with (e := e).
      exact Hd.
    + rewrite log_log.
      change (flat_map (transient_calls m) (e :: errs))
        with (transient_calls m e ++ flat_map (transient_calls m) errs)%list.
      rewrite <- app_assoc. reflexivity.
  - injection H as <- <-. exists [], last. split; [|split].
    + intros k e Hk. destruct k; discriminate.
    + exact Hd.
    + reflexivity.
Qed.

Lemma loop_fuel_never env m n : forall w,
  (forall k, exists e,
      status_at env m w k = (ServiceRunning, None) /\ probe_at env m w k = inr e) ->
  loop_fuel (tick_step env m) n w = None.
Proof.
  induction n as [|n IH]; intros w H; simpl; [reflexivity|].
  destruct (H 0) as (e & Hs & Hp).
  rewrite (tick_step_transient _ _ _ _ Hs Hp).
  apply IH. intros k. rewrite status_at_shift, probe_at_shift. apply H.
Qed.

(** ** The readiness wait *)

(** The [for] loop, run, is the loop of [tick_step]. *)
Lemma loop_run env m w :
  run env (ITree.iter (fun _ : unit => waitForGaleraInit_tick m) tt) w
  ≈ pure_loop (tick_step env m) w.
Proof.
  unfold run.
  rewrite (interp_state_iter'_eutt (handle env) _
             (fun _ w => Ret (tick_result env m w))) by (intros; apply tick_run).
  unfold Basics.iter, MonadIter_stateT0, Basics.iter, MonadIter_itree, pure_loop.
  apply (eutt_iter' (fun (si : World * unit) (w' : World) => fst si = w')); [|reflexivity].
  intros [w1 []] w2 Hw. simpl in Hw. subst w2. cbn.
  rewrite bind_ret_l. unfold tick_step.
  destruct (tick_result env m w1) as [w2 [[]|err]]; cbn;
    apply eqit_Ret; constructor; reflexivity.
Qed.

Lemma wait_run env m w :
  run env (waitForGaleraInit m) w
  ≈ ITree.bind (pure_loop (tick_step env m) (log w [CallNewTicker (1 * Second)]))
      (fun wr => Ret (log (fst wr) [CallTickerStop], snd wr)).
Proof.
  unfold waitForGaleraInit.
  rewrite run_call. cbn [respond fst snd].
  rewrite run_bind, loop_run.
  apply eutt_eq_bind. intros [w1 err]. cbn [fst snd].
  rewrite run_call. cbn [respond fst snd]. apply run_ret.
Qed.

Lemma status_at_ticker env m w d k :
  status_at env m (log w [CallNewTicker d]) k = status_at env m w k.
Proof. unfold status_at. world_simpl. reflexivity. Qed.

Lemma probe_at_ticker env m w d k :
  probe_at env m (log w [CallNewTicker d]) k = probe_at env m w k.
Proof. unfold probe_at. world_simpl. reflexivity. Qed.

(** After some transient ticks and a decisive one, the wait returns. *)
Lemma wait_returns env m w errs last r :
  transient_ticks env m w errs ->
  decisive m (status_at env m w (length errs)) (probe_at env m w (length errs)) last r ->
  run env (waitForGaleraInit m) w ≈ Ret (log w (wait_calls m errs last), r).
Proof.
  intros Ht Hd. rewrite wait_run.
  rewrite (pure_loop_returns (tick_step env m) (S (length errs)) _
             (log (log w [CallNewTicker (1 * Second)])
                  (flat_map (transient_calls m) errs ++ last), r)).
  - rewrite bind_ret_l. cbn [fst snd]. rewrite !log_log.
    unfold wait_calls. simpl. rewrite <- app_assoc. reflexivity.
  - apply loop_fuel_decisive.
    + intros k e Hk. rewrite status_at_ticker, probe_at_ticker. apply Ht, Hk.
    + rewrite status_at_ticker, probe_at_ticker. exact Hd.
Qed.

(** The wait returns in no other way. *)
Lemma wait_returns_inv env m w w' r :
  run env (waitForGaleraInit m) w ≈ Ret (w', r) ->
  exists errs last,
    transient_ticks env m w errs
    /\ decisive m (status_at env m w (length errs)) (probe_at env m w (length errs)) last r
    /\ w' = log w (wait_calls m errs last).
Proof.
  intros H. rewrite wait_run in H.
  apply eutt_inv_bind_ret in H. destruct H as ([w1 r1] & Hloop & Hret).
  apply eutt_inv_Ret in Hret. cbn [fst snd] in Hret. injection Hret as <- <-.
  apply pure_loop_returns_inv in Hloop. destruct Hloop as [n Hn].
  apply loop_fuel_inv in Hn. destruct Hn as (errs & last & Ht & Hd & ->).
  exists errs, last. split; [|split].
  - intros k e Hk. rewrite <- (status_at_ticker env m w (1 * Second)),
      <- (probe_at_ticker env m w (1 * Second)). apply Ht, Hk.
  - rewrite <- (status_at_ticker env m w (1 * Second)),
      <- (probe_at_ticker env m w (1 * Second)). exact Hd.
  - rewrite !log_log. unfold wait_calls. simpl. rewrite <- app_assoc. reflexivity.
Qed.

(** While every tick is transient, the wait goes on. *)
Lemma wait_diverges env m w :
  (forall k, exists e,
      status_at env m w k = (ServiceRunning, None) /\ probe_at env m w k = inr e) ->
  run env (waitForGaleraInit m) w ≈ ITree.spin.
Proof.
  intros H. rewrite wait_run.
  rewrite pure_loop_spins.
  - apply bind_spin.
  - intros n. apply loop_fuel_never.
    intros k. rewrite status_at_ticker, probe_at_ticker. apply H.
Qed.

(** Within each tick of a wait, monit is asked before the endpoint. *)
Lemma wait_calls_guarded m errs last st pr r :
  decisive m st pr last r ->
  probe_guarded false (wait_calls m errs last) = true.
Proof.
  intros Hd. unfold wait_calls. cbn [probe_guarded].
  generalize false. induction errs as [|e errs IH]; intros b.
  - destruct Hd, b; reflexivity.
  - cbn [flat_map transient_calls app probe_guarded andb]. apply IH.
Qed.

(** ** The start operations *)

Lemma permitted_dec i m :
  permitted i m \/ (i = Bootstrap /\ ServiceName m = "garbd").
Proof.
  destruct i; try (left; intros H; discriminate).
  destruct (String.eqb_spec (ServiceName m) "garbd") as [Heq|Hne].
  - right. split; [reflexivity | exact Heq].
  - left. intros _. exact Hne.
Qed.

(** A permitted start operation writes the marker, starts the service
    and waits, stopping at the first failure. *)
Lemma start_run env i m w :
  permitted i m ->
  run env (StartService i m) w
  ≈ match write_answer env i m w with
    | WriteErr err remains =>
        Ret (write_failed i m remains w, ("", Some (PersistenceFailure err)))
    | WriteOk =>
        match start_answer env m w with
        | Some err => Ret (started i m w, ("", Some err))
        | None =>
            ITree.bind (run env (waitForGaleraInit m) (started i m w))
              (fun wr => Ret (fst wr, start_result i (snd wr)))
        end
    end.
Proof.
  intros Hp.
  assert (Hbody : forall msg : string,
    run env
      (err <- ITree.trigger (WriteFile (StateFilePath m) (marker i) state_file_perm) ;;
       match err with
       | Some err => Ret ("", Some (errors_Wrap err "failed to initialize state file"))
       | None =>
           err <- ITree.trigger (MonitStart (ServiceName m)) ;;
           match err with
           | Some err => Ret ("", Some err)
           | None =>
               err <- waitForGaleraInit m ;;
               match err with
               | Some err => Ret ("", Some err)
               | None => Ret (msg, None)
               end
           end
       end) w
    ≈ match write_answer env i m w with
      | WriteErr err remains =>
          Ret (write_failed i m remains w, ("", Some (PersistenceFailure err)))
      | WriteOk =>
          match start_answer env m w with
          | Some err => Ret (started i m w, ("", Some err))
          | None =>
              ITree.bind (run env (waitForGaleraInit m) (started i m w))
                (fun wr => Ret (fst wr, match snd wr with
                                        | Some err => ("", Some err)
                                        | None => (msg, None)
                                        end))
          end
      end).
  { intros msg. rewrite run_call. unfold write_answer, start_answer. cbn [respond].
    destruct (os_WriteFile env (writes w) (StateFilePath m) (marker i) state_file_perm)
      as [|err remains]; cbn [fst snd].
    - rewrite run_call. cbn [respond fst snd].
      replace (starts _) with (starts w)
        by (unfold starts; simpl; rewrite calls_app; simpl; lia).
      destruct (monit_Start env (starts w) (ServiceName m)) as [err|].
      + apply run_ret.
      + rewrite run_bind. apply eutt_eq_bind. intros [w1 [err|]]; apply run_ret.
    - apply run_ret. }
  destruct i; simpl StartService.
  - unfold StartServiceBootstrap.
    destruct (String.eqb_spec (ServiceName m) "garbd") as [Heq|_].
    + destruct (Hp eq_refl Heq).
    + apply (Hbody "cluster bootstrap successful").
  - apply (Hbody "join cluster successful").
  - apply (Hbody "single node start successful").
Qed.

Lemma bootstrap_arbitrator_run env m w :
  ServiceName m = "garbd" ->
  run env (StartServiceBootstrap m) w ≈ Ret (w, ("", Some InvalidIntent)).
Proof.
  intros Heq. unfold StartServiceBootstrap. rewrite Heq. simpl. apply run_ret.
Qed.

(** The marker write and the start command are no tick signals. *)
Lemma status_at_started env i m w k :
  status_at env m (started i m w) k = status_at env m w k.
Proof. unfold status_at. world_simpl. reflexivity. Qed.

Lemma probe_at_started env i m w k :
  probe_at env m (started i m w) k = probe_at env m w k.
Proof. unfold probe_at. world_simpl. reflexivity. Qed.

Lemma start_returns env i m w w' r :
  permitted i m ->
  start_outcome env i m w w' r ->
  run env (StartService i m) w ≈ Ret (w', r).
Proof.
  intros Hp Ho. rewrite (start_run env i m w Hp).
  destruct Ho as [err remains Hw|err Hw Hs|errs last err Hw Hs Ht Hd];
    rewrite Hw; try rewrite Hs; try reflexivity.
  rewrite (wait_returns env m (started i m w) errs last err).
  - rewrite bind_ret_l. reflexivity.
  - intros k e Hk. rewrite status_at_started, probe_at_started. apply Ht, Hk.
  - rewrite status_at_started, probe_at_started. exact Hd.
Qed.

Lemma start_returns_inv env i m w w' r :
  permitted i m ->
  run env (StartService i m) w ≈ Ret (w', r) ->
  start_outcome env i m w w' r.
Proof.
  intros Hp H. rewrite (start_run env i m w Hp) in H.
  destruct (write_answer env i m w) as [|err remains] eqn:Hw.
  - destruct (start_answer env m w) as [err|] eqn:Hs.
    + apply eutt_inv_Ret in H. injection H as <- <-.
      apply outcome_start_failed; assumption.
    + apply eutt_inv_bind_ret in H. destruct H as ([w1 r1] & Hwait & Hret).
      apply eutt_inv_Ret in Hret. cbn [fst snd] in Hret. injection Hret as <- <-.
      apply wait_returns_inv in Hwait.
      destruct Hwait as (errs & last & Ht & Hd & ->).
      apply outcome_waited; try assumption.
      * intros k e Hk.
        rewrite <- (status_at_started env i m w), <- (probe_at_started env i m w).
        apply Ht, Hk.
      * rewrite <- (status_at_started env i m w), <- (probe_at_started env i m w).
        exact Hd.
  - apply eutt_inv_Ret in H. injection H as <- <-.
    apply outcome_write_failed. assumption.
Qed.

(** A call list that is empty or opens with a call that is no start
    command has that call before each of its start commands. *)
Lemma first_call_precedes_starts (c : Call) (cs : list Call) :
  is_Start c = false ->
  cs = [] \/ (exists rest, cs = c :: rest) ->
  forall before n after, cs = (before ++ CallStart n :: after)%list -> In c before.
Proof.
  intros Hc Hcs before n after Heq.
  destruct Hcs as [->|[rest ->]].
  - destruct before; discriminate.
  - destruct before as [|b before]; simpl in Heq.
    + injection Heq as -> _. discriminate.
    + injection Heq as -> _. left. reflexivity.
Qed.

(** The history of each outcome of a start operation opens with the
    marker write. *)
Lemma start_outcome_history env i m w w' r :
  start_outcome env i m w w' r ->
  exists rest, history w' = (history w ++ marker_write i m :: rest)%list.
Proof.
  intros Ho. destruct Ho as [err remains Hw|err Hw Hs|errs last err Hw Hs Ht Hd].
  - exists []. reflexivity.
  - exists [CallStart (ServiceName m)].
    unfold started, written, log. simpl. rewrite <- app_assoc. reflexivity.
  - exists (CallStart (ServiceName m) :: wait_calls m errs last).
    unfold started, written, log. simpl. rewrite <- !app_assoc. reflexivity.
Qed.

(** Once written, the marker is what the file holds in every outcome,
    and no outcome writes twice. *)
Lemma start_outcome_marker env i m w w' r :
  start_outcome env i m w w' r ->
  write_answer env i m w = WriteOk ->
  files w' = <[StateFilePath m := marker i]> (files w) /\ writes w' = writes w + 1.
Proof.
  intros Ho Hok. destruct Ho as [err remains Hw|err Hw Hs|errs last err Hw Hs Ht Hd].
  - rewrite Hw in Hok. discriminate.
  - split; [reflexivity | count_wait].
  - split; [reflexivity | destruct Hd; count_wait].
Qed.

(** A start operation that succeeds has started the service and gives
    the message of its intent. *)
Lemma start_outcome_success env i m w w' r :
  start_outcome env i m w w' r ->
  snd r = None ->
  r = (success_message i, None)
  /\ write_answer env i m w = WriteOk
  /\ exists rest,
       history w' = (history w ++ marker_write i m :: CallStart (ServiceName m) :: rest)%list.
Proof.
  intros Ho Hr. destruct Ho as [err remains Hw|err Hw Hs|errs last err Hw Hs Ht Hd];
    try discriminate.
  destruct err as [err|]; [discriminate|].
  split; [reflexivity|]. split; [exact Hw|].
  exists (wait_calls m errs last).
  unfold started, written, log. simpl. rewrite <- !app_assoc. reflexivity.
Qed.

(** ** The readiness wait: what each signal does *)

(** C1: a connection or timeout error of the GET to the readiness
    endpoint does not end the wait: it is logged and the next tick comes.
    When monit reports the service running on every tick and the endpoint
    is unreachable on the first N ticks (N is [length errs]) and answers
    200 on the next, the wait returns [nil] after exactly N+1 ticks, N
    errors logged; and the start operation of any permitted intent, once
    its marker is written and its start command accepted, returns the
    success message of that intent after those N+1 ticks. *)
Theorem connection_errors_are_retried env m w errs res :
  transient_ticks env m w errs ->
  status_at env m w (length errs) = (ServiceRunning, None) ->
  probe_at env m w (length errs) = inl res ->
  StatusCode res = StatusOK ->
  run env (waitForGaleraInit m) w
  ≈ Ret (log w (wait_calls m errs (response_calls m res)), None)
  /\ ticks (log w (wait_calls m errs (response_calls m res)))
     = ticks w + (length errs + 1)
  /\ logged_errors (log w (wait_calls m errs (response_calls m res)))
     = logged_errors w + length errs
  /\ forall i,
       permitted i m ->
       write_answer env i m w = WriteOk ->
       start_answer env m w = None ->
       run env (StartService i m) w
       ≈ Ret (log (started i m w) (wait_calls m errs (response_calls m res)),
              (success_message i, None))
       /\ ticks (log (started i m w) (wait_calls m errs (response_calls m res)))
          = ticks w + (length errs + 1).
Proof.
  intros Ht Hst Hpr Hok.
  assert (Hd : decisive m (status_at env m w (length errs))
                 (probe_at env m w (length errs)) (response_calls m res) None).
  { rewrite Hst, Hpr. apply readiness_confirmed, Hok. }
  split; [apply wait_returns; assumption|].
  split; [count_wait|]. split; [count_wait|].
  intros i Hp Hw Hs. split; [|count_wait].
  apply (start_returns env i m w _ _ Hp).
  apply (outcome_waited env i m w errs _ None); assumption.
Qed.

(** C2: an HTTP response of the readiness endpoint ends the wait, whatever
    its status code and however many ticks before it met transport
    errors: with [nil] when the code is 200, with [ReadinessRejected] when
    it is any other (503 is one). *)
Theorem readiness_answer_ends_wait env m w errs res :
  transient_ticks env m w errs ->
  status_at env m w (length errs) = (ServiceRunning, None) ->
  probe_at env m w (length errs) = inl res ->
  run env (waitForGaleraInit m) w
  ≈ Ret (log w (wait_calls m errs (response_calls m res)),
         if (StatusCode res =? StatusOK)%Z then None
         else Some (ReadinessRejected res))
  /\ ticks (log w (wait_calls m errs (response_calls m res)))
     = ticks w + (length errs + 1).
Proof.
  intros Ht Hst Hpr. split; [|count_wait].
  apply wait_returns; [exact Ht|]. rewrite Hst, Hpr.
  destruct (Z.eqb_spec (StatusCode res) StatusOK) as [Hok|Hne].
  - apply readiness_confirmed, Hok.
  - apply readiness_rejected, Hne.
Qed.

(** C3: on every tick monit is asked before the readiness endpoint, and
    on the tick where monit reports a status other than the running one
    the wait ends with [ProcessNotRunning]: that tick is the last, and the
    endpoint is not asked on it (it was asked once on each earlier
    tick). *)
Theorem not_running_ends_wait env m w errs status :
  transient_ticks env m w errs ->
  status_at env m w (length errs) = (status, None) ->
  status <> ServiceRunning ->
  run env (waitForGaleraInit m) w
  ≈ Ret (log w (wait_calls m errs (not_running_calls m status)),
         Some ProcessNotRunning)
  /\ probe_guarded false (wait_calls m errs (not_running_calls m status)) = true
  /\ ticks (log w (wait_calls m errs (not_running_calls m status)))
     = ticks w + (length errs + 1)
  /\ status_queries (log w (wait_calls m errs (not_running_calls m status)))
     = status_queries w + (length errs + 1)
  /\ probes (log w (wait_calls m errs (not_running_calls m status)))
     = probes w + length errs.
Proof.
  intros Ht Hst Hne.
  assert (Hd : decisive m (status_at env m w (length errs))
                 (probe_at env m w (length errs))
                 (not_running_calls m status) (Some ProcessNotRunning)).
  { rewrite Hst. apply process_not_running, Hne. }
  split; [apply wait_returns; assumption|].
  split; [eapply wait_calls_guarded, Hd|].
  split; [count_wait|]. split; count_wait.
Qed.

(** C4: on the tick where the status query to monit fails the wait ends
    with [StatusQueryFailed]: that tick is the last, and the readiness
    endpoint is not asked on it. *)
Theorem status_query_failure_ends_wait env m w errs status e :
  transient_ticks env m w errs ->
  status_at env m w (length errs) = (status, Some e) ->
  run env (waitForGaleraInit m) w
  ≈ Ret (log w (wait_calls m errs (status_failed_calls m)),
         Some (StatusQueryFailed m))
  /\ ticks (log w (wait_calls m errs (status_failed_calls m)))
     = ticks w + (length errs + 1)
  /\ status_queries (log w (wait_calls m errs (status_failed_calls m)))
     = status_queries w + (length errs + 1)
  /\ probes (log w (wait_calls m errs (status_failed_calls m)))
     = probes w + length errs.
Proof.
  intros Ht Hst.
  split; [|split; [count_wait|split; count_wait]].
  apply wait_returns; [exact Ht|]. rewrite Hst. apply status_query_failed.
Qed.

(** C9: the wait has no deadline and no limit on its ticks.  Whatever the
    signals, it returns on the first tick whose signals are decisive, if
    there is one, however late, and it returns in no other way; while
    every tick finds the service running and the endpoint unreachable it
    never returns. *)
Theorem wait_has_no_deadline env m w :
  (forall errs last r,
      transient_ticks env m w errs ->
      decisive m (status_at env m w (length errs)) (probe_at env m w (length errs))
        last r ->
      run env (waitForGaleraInit m) w ≈ Ret (log w (wait_calls m errs last), r)
      /\ ticks (log w (wait_calls m errs last)) = ticks w + (length errs + 1))
  /\ (forall w' r,
      run env (waitForGaleraInit m) w ≈ Ret (w', r) ->
      exists errs last,
        transient_ticks env m w errs
        /\ decisive m (status_at env m w (length errs))
             (probe_at env m w (length errs)) last r
        /\ w' = log w (wait_calls m errs last))
  /\ ((forall k, exists e,
         status_at env m w k = (ServiceRunning, None)
         /\ probe_at env m w k = inr e) ->
      run env (waitForGaleraInit m) w ≈ ITree.spin).
Proof.
  split; [|split].
  - intros errs last r Ht Hd. split; [apply wait_returns; assumption|].
    destruct Hd; count_wait.
  - intros w' r. apply wait_returns_inv.
  - apply wait_diverges.
Qed.

(** ** The operations: marker, start command, stop command *)

(** C5: for every start intent the write of the Declared State Marker
    comes before the start command: in the calls of every run that
    returns, each start command has the marker write before it.  When the
    marker write fails the operation returns [PersistenceFailure] and
    monit is not called at all: no start, no stop, no status query. *)
Theorem marker_write_precedes_start env i m w :
  (forall w' r,
      run env (StartService i m) w ≈ Ret (w', r) ->
      exists cs,
        history w' = (history w ++ cs)%list
        /\ forall before n after,
             cs = (before ++ CallStart n :: after)%list ->
             In (marker_write i m) before)
  /\ (forall err remains,
      permitted i m ->
      write_answer env i m w = WriteErr err remains ->
      run env (StartService i m) w
      ≈ Ret (write_failed i m remains w, ("", Some (PersistenceFailure err)))
      /\ starts (write_failed i m remains w) = starts w
      /\ stops (write_failed i m remains w) = stops w
      /\ status_queries (write_failed i m remains w) = status_queries w).
Proof.
  split.
  - intros w' r H.
    destruct (permitted_dec i m) as [Hp|[-> Hg]].
    + apply (start_returns_inv env i m w w' r Hp) in H.
      destruct (start_outcome_history _ _ _ _ _ _ H) as [rest Hh].
      exists (marker_write i m :: rest). split; [exact Hh|].
      apply first_call_precedes_starts; [reflexivity|].
      right. exists rest. reflexivity.
    + simpl StartService in H. rewrite (bootstrap_arbitrator_run env m w Hg) in H.
      apply eutt_inv_Ret in H. injection H as <- _.
      exists []. split; [symmetry; apply app_nil_r|].
      intros before n after Heq. destruct before; discriminate.
  - intros err remains Hp Hw.
    split; [|split; [count_wait|split; count_wait]].
    apply (start_returns env i m w _ _ Hp).
    apply outcome_write_failed, Hw.
Qed.

(** What a permitted start operation does, answer by answer: it writes
    the marker and returns [PersistenceFailure] when the write fails;
    else it sends the start command and returns the error of monit, if
    any; else it waits, and returns what the wait returns, the success
    message for [nil].  The marker is in the file from the write on. *)
Lemma start_behaviour env i m w :
  permitted i m ->
  (forall err remains,
      write_answer env i m w = WriteErr err remains ->
      run env (StartService i m) w
      ≈ Ret (write_failed i m remains w, ("", Some (PersistenceFailure err)))
      /\ history (write_failed i m remains w)
         = (history w
            ++ [CallWriteFile (StateFilePath m) (marker i) state_file_perm])%list)
  /\ (write_answer env i m w = WriteOk ->
      history (started i m w)
      = (history w
         ++ [CallWriteFile (StateFilePath m) (marker i) state_file_perm;
             CallStart (ServiceName m)])%list
      /\ files (started i m w) !! StateFilePath m = Some (marker i)
      /\ (forall err,
            start_answer env m w = Some err ->
            run env (StartService i m) w ≈ Ret (started i m w, ("", Some err)))
      /\ (start_answer env m w = None ->
          forall errs last e,
            transient_ticks env m w errs ->
            decisive m (status_at env m w (length errs))
              (probe_at env m w (length errs)) last e ->
            run env (StartService i m) w
            ≈ Ret (log (started i m w) (wait_calls m errs last),
                   match e with
                   | Some e' => ("", Some e')
                   | None => (success_message i, None)
                   end)
            /\ files (log (started i m w) (wait_calls m errs last))
               !! StateFilePath m = Some (marker i))).
Proof.
  intros Hp. split.
  - intros err remains Hw. split; [|reflexivity].
    apply (start_returns env i m w _ _ Hp). apply outcome_write_failed, Hw.
  - intros Hw. split; [|split; [|split]].
    + unfold started, written, log. simpl. rewrite <- app_assoc. reflexivity.
    + apply lookup_insert_eq.
    + intros err Hs. apply (start_returns env i m w _ _ Hp).
      apply outcome_start_failed; assumption.
    + intros Hs errs last e Ht Hd. split; [|apply lookup_insert_eq].
      apply (start_returns env i m w _ _ Hp).
      apply (outcome_waited env i m w errs last e); assumption.
Qed.

(** C6: for the arbitrator (the service named garbd) [StartServiceBootstrap]
    returns [InvalidIntent] at once and leaves the world as it was: no
    file written, no call made.  For every other service it writes the
    marker NEEDS_BOOTSTRAP as its first call, whatever follows: when the
    write fails it returns [PersistenceFailure] after that one call;
    when the write succeeds the file holds the marker, the start command
    comes next, and the operation returns the error of the start command
    or what the wait returns, with the message "cluster bootstrap
    successful" when the wait returns [nil].  It returns in no other
    way: every run that returns opens with the marker write, and one that
    succeeds has started the service. *)
Theorem bootstrap_refused_for_arbitrator env m w :
  (ServiceName m = "garbd" ->
   run env (StartServiceBootstrap m) w ≈ Ret (w, ("", Some InvalidIntent)))
  /\ (ServiceName m <> "garbd" ->
      (forall err remains,
          write_answer env Bootstrap m w = WriteErr err remains ->
          run env (StartServiceBootstrap m) w
          ≈ Ret (write_failed Bootstrap m remains w, ("", Some (PersistenceFailure err)))
          /\ history (write_failed Bootstrap m remains w)
             = (history w
                ++ [CallWriteFile (StateFilePath m) "NEEDS_BOOTSTRAP" state_file_perm])%list)
      /\ (write_answer env Bootstrap m w = WriteOk ->
          history (started Bootstrap m w)
          = (history w
             ++ [CallWriteFile (StateFilePath m) "NEEDS_BOOTSTRAP" state_file_perm;
                 CallStart (ServiceName m)])%list
          /\ files (started Bootstrap m w) !! StateFilePath m = Some "NEEDS_BOOTSTRAP"
          /\ (forall err,
                start_answer env m w = Some err ->
                run env (StartServiceBootstrap m) w ≈ Ret (started Bootstrap m w, ("", Some err)))
          /\ (start_answer env m w = None ->
              forall errs last e,
                transient_ticks env m w errs ->
                decisive m (status_at env m w (length errs))
                  (probe_at env m w (length errs)) last e ->
                run env (StartServiceBootstrap m) w
                ≈ Ret (log (started Bootstrap m w) (wait_calls m errs last),
                       match e with
                       | Some e' => ("", Some e')
                       | None => ("cluster bootstrap successful", None)
                       end)
                /\ files (log (started Bootstrap m w) (wait_calls m errs last))
                   !! StateFilePath m = Some "NEEDS_BOOTSTRAP"))
      /\ forall w' r,
           run env (StartServiceBootstrap m) w ≈ Ret (w', r) ->
           (exists rest,
               history w'
               = (history w
                  ++ CallWriteFile (StateFilePath m) "NEEDS_BOOTSTRAP" state_file_perm
                  :: rest)%list)
           /\ (snd r = None ->
               r = ("cluster bootstrap successful", None)
               /\ files w' !! StateFilePath m = Some "NEEDS_BOOTSTRAP"
               /\ exists rest,
                    history w'
                    = (history w
                       ++ CallWriteFile (StateFilePath m) "NEEDS_BOOTSTRAP"
                            state_file_perm
                       :: CallStart (ServiceName m) :: rest)%list)).
Proof.
  split; [apply bootstrap_arbitrator_run|].
  intros Hne.
  assert (Hp : permitted Bootstrap m) by (intros _; exact Hne).
  destruct (start_behaviour env Bootstrap m w Hp) as [Hfail Hok].
  split; [exact Hfail|]. split; [exact Hok|].
  intros w' r H.
  apply (start_returns_inv env Bootstrap m w w' r Hp) in H.
  split.
  - apply (start_outcome_history _ _ _ _ _ _ H).
  - intros Hr.
    destruct (start_outcome_success _ _ _ _ _ _ H Hr) as (-> & Hw & rest & Hh).
    destruct (start_outcome_marker _ _ _ _ _ _ H Hw) as [Hf _].
    split; [reflexivity|]. split.
    + rewrite Hf. apply lookup_insert_eq.
    + exists rest. exact Hh.
Qed.

(** The marker of every returning run of a start operation that has no
    restriction. *)
Lemma unrestricted_start env i m w w' r :
  i <> Bootstrap ->
  run env (StartService i m) w ≈ Ret (w', r) ->
  (exists rest, history w' = (history w ++ marker_write i m :: rest)%list)
  /\ (write_answer env i m w = WriteOk ->
      files w' !! StateFilePath m = Some (marker i))
  /\ (snd r = None ->
      r = (success_message i, None)
      /\ files w' !! StateFilePath m = Some (marker i)).
Proof.
  intros Hi H.
  assert (Hp : permitted i m) by (intros Hb; destruct (Hi Hb)).
  apply (start_returns_inv env i m w w' r Hp) in H.
  split; [apply (start_outcome_history _ _ _ _ _ _ H)|]. split.
  - intros Hw. destruct (start_outcome_marker _ _ _ _ _ _ H Hw) as [-> _].
    apply lookup_insert_eq.
  - intros Hr.
    destruct (start_outcome_success _ _ _ _ _ _ H Hr) as (-> & Hw & _).
    destruct (start_outcome_marker _ _ _ _ _ _ H Hw) as [-> _].
    split; [reflexivity | apply lookup_insert_eq].
Qed.

(** C7: [StartServiceJoin] writes the marker CLUSTERED and
    [StartServiceSingleNode] the marker SINGLE_NODE, as their first call,
    for every service, the arbitrator too: no name is tested and nothing
    is assumed of the name.  Whatever follows the write: when it fails
    the operation returns [PersistenceFailure] after that one call; when
    it succeeds the file holds the marker, the start command comes next,
    and the operation returns the error of the start command or what the
    wait returns, with the message "join cluster successful",
    respectively "single node start successful", when the wait returns
    [nil].  They return in no other way: every run that returns opens
    with the marker write. *)
Theorem join_and_single_node_for_every_service env m w w' r :
  ((forall err remains,
       write_answer env Join m w = WriteErr err remains ->
       run env (StartServiceJoin m) w
       ≈ Ret (write_failed Join m remains w, ("", Some (PersistenceFailure err)))
       /\ history (write_failed Join m remains w)
          = (history w
             ++ [CallWriteFile (StateFilePath m) "CLUSTERED" state_file_perm])%list)
   /\ (write_answer env Join m w = WriteOk ->
       history (started Join m w)
       = (history w
          ++ [CallWriteFile (StateFilePath m) "CLUSTERED" state_file_perm;
              CallStart (ServiceName m)])%list
       /\ files (started Join m w) !! StateFilePath m = Some "CLUSTERED"
       /\ (forall err,
             start_answer env m w = Some err ->
             run env (StartServiceJoin m) w ≈ Ret (started Join m w, ("", Some err)))
       /\ (start_answer env m w = None ->
           forall errs last e,
             transient_ticks env m w errs ->
             decisive m (status_at env m w (length errs))
               (probe_at env m w (length errs)) last e ->
             run env (StartServiceJoin m) w
             ≈ Ret (log (started Join m w) (wait_calls m errs last),
                    match e with
                    | Some e' => ("", Some e')
                    | None => ("join cluster successful", None)
                    end)
             /\ files (log (started Join m w) (wait_calls m errs last))
                !! StateFilePath m = Some "CLUSTERED"))
   /\ (run env (StartServiceJoin m) w ≈ Ret (w', r) ->
       (exists rest,
           history w'
           = (history w
              ++ CallWriteFile (StateFilePath m) "CLUSTERED" state_file_perm :: rest)%list)
       /\ (write_answer env Join m w = WriteOk ->
           files w' !! StateFilePath m = Some "CLUSTERED")
       /\ (snd r = None ->
           r = ("join cluster successful", None)
           /\ files w' !! StateFilePath m = Some "CLUSTERED")))
  /\ ((forall err remains,
          write_answer env SingleNode m w = WriteErr err remains ->
          run env (StartServiceSingleNode m) w
          ≈ Ret (write_failed SingleNode m remains w, ("", Some (PersistenceFailure err)))
          /\ history (write_failed SingleNode m remains w)
             = (history w
                ++ [CallWriteFile (StateFilePath m) "SINGLE_NODE" state_file_perm])%list)
      /\ (write_answer env SingleNode m w = WriteOk ->
          history (started SingleNode m w)
          = (history w
             ++ [CallWriteFile (StateFilePath m) "SINGLE_NODE" state_file_perm;
                 CallStart (ServiceName m)])%list
          /\ files (started SingleNode m w) !! StateFilePath m = Some "SINGLE_NODE"
          /\ (forall err,
                start_answer env m w = Some err ->
                run env (StartServiceSingleNode m) w ≈ Ret (started SingleNode m w, ("", Some err)))
          /\ (start_answer env m w = None ->
              forall errs last e,
                transient_ticks env m w errs ->
                decisive m (status_at env m w (length errs))
                  (probe_at env m w (length errs)) last e ->
                run env (StartServiceSingleNode m) w
                ≈ Ret (log (started SingleNode m w) (wait_calls m errs last),
                       match e with
                       | Some e' => ("", Some e')
                       | None => ("single node start successful", None)
                       end)
                /\ files (log (started SingleNode m w) (wait_calls m errs last))
                   !! StateFilePath m = Some "SINGLE_NODE"))
      /\ (run env (StartServiceSingleNode m) w ≈ Ret (w', r) ->
          (exists rest,
              history w'
              = (history w
                 ++ CallWriteFile (StateFilePath m) "SINGLE_NODE" state_file_perm :: rest)%list)
          /\ (write_answer env SingleNode m w = WriteOk ->
              files w' !! StateFilePath m = Some "SINGLE_NODE")
          /\ (snd r = None ->
              r = ("single node start successful", None)
              /\ files w' !! StateFilePath m = Some "SINGLE_NODE"))).
Proof.
  assert (Hj : permitted Join m) by (intros H; discriminate).
  assert (Hs : permitted SingleNode m) by (intros H; discriminate).
  split.
  - destruct (start_behaviour env Join m w Hj) as [Hfail Hok].
    split; [exact Hfail|]. split; [exact Hok|].
    intros H.
    apply (unrestricted_start env Join m w w' r); [discriminate | exact H].
  - destruct (start_behaviour env SingleNode m w Hs) as [Hfail Hok].
    split; [exact Hfail|]. split; [exact Hok|].
    intros H.
    apply (unrestricted_start env SingleNode m w w' r); [discriminate | exact H].
Qed.

(** C8: [StopService] makes one call, the stop command to monit: it
    writes no file, makes no ticker and asks neither monit's status nor
    the readiness endpoint.  Its message is "stop successful" exactly when
    the stop command succeeds; otherwise it returns the error of monit as
    it is. *)
Theorem stop_only_stops env m w :
  exists r,
    run env (StopService m) w ≈ Ret (log w [CallStop (ServiceName m)], r)
    /\ (r = ("stop successful", None) <-> monit_Stop env (stops w) (ServiceName m) = None)
    /\ (forall err, monit_Stop env (stops w) (ServiceName m) = Some err ->
                    r = ("", Some err))
    /\ files (log w [CallStop (ServiceName m)]) = files w
    /\ stops (log w [CallStop (ServiceName m)]) = stops w + 1
    /\ writes (log w [CallStop (ServiceName m)]) = writes w
    /\ ticks (log w [CallStop (ServiceName m)]) = ticks w
    /\ status_queries (log w [CallStop (ServiceName m)]) = status_queries w
    /\ probes (log w [CallStop (ServiceName m)]) = probes w.
Proof.
  exists (match monit_Stop env (stops w) (ServiceName m) with
          | Some err => ("", Some err)
          | None => ("stop successful", None)
          end).
  split; [|split; [|split; [|split; [reflexivity|repeat split; count_wait]]]].
  - unfold StopService. rewrite run_call. cbn [respond fst snd].
    destruct (monit_Stop env (stops w) (ServiceName m)); apply run_ret.
  - destruct (monit_Stop env (stops w) (ServiceName m)); split; intros H;
      (reflexivity || discriminate).
  - intros err ->. reflexivity.
Qed.

(** C10: once the marker write of a start operation has succeeded, a
    later failure of that operation (of the start command or of the wait)
    leaves the marker alone: when the operation returns its error the
    files are the files at entry with the marker file holding the token
    of the intent, and the operation has written once. *)
Theorem marker_survives_later_failure env i m w w' msg err :
  permitted i m ->
  write_answer env i m w = WriteOk ->
  run env (StartService i m) w ≈ Ret (w', (msg, Some err)) ->
  files w' = <[StateFilePath m := marker i]> (files w)
  /\ files w' !! StateFilePath m = Some (marker i)
  /\ writes w' = writes w + 1.
Proof.
  intros Hp Hw H.
  apply (start_returns_inv env i m w w' _ Hp) in H.
  destruct (start_outcome_marker _ _ _ _ _ _ H Hw) as [Hf Hn].
  split; [exact Hf|]. split; [|exact Hn].
  rewrite Hf. apply lookup_insert_eq.
Qed.

(** ** What else the operations keep to *)

(** X1: [GetStatus] asks monit once for the status of the service and
    returns both parts of the answer as they are, the status beside the
    error when monit gives both; it writes no file and makes no other
    call. *)
Theorem get_status_passes_through env m w :
  run env (GetStatus m) w
  ≈ Ret (log w [CallStatus (ServiceName m)],
         monit_Status env (status_queries w) (ServiceName m))
  /\ files (log w [CallStatus (ServiceName m)]) = files w
  /\ status_queries (log w [CallStatus (ServiceName m)]) = status_queries w + 1
  /\ writes (log w [CallStatus (ServiceName m)]) = writes w
  /\ starts (log w [CallStatus (ServiceName m)]) = starts w
  /\ stops (log w [CallStatus (ServiceName m)]) = stops w
  /\ probes (log w [CallStatus (ServiceName m)]) = probes w.
Proof.
  split; [|split; [reflexivity|repeat split; count_wait]].
  unfold GetStatus. apply run_trigger.
Qed.

(** X2: when monit refuses the start command, a start operation returns
    the error of monit as it is, with no message, and never enters the
    wait: after the marker write and the start command it makes no
    ticker, asks no status and sends no probe.  The marker stays
    written. *)
Theorem start_failure_skips_wait env i m w err :
  permitted i m ->
  write_answer env i m w = WriteOk ->
  start_answer env m w = Some err ->
  run env (StartService i m) w ≈ Ret (started i m w, ("", Some err))
  /\ history (started i m w)
     = (history w ++ [marker_write i m; CallStart (ServiceName m)])%list
  /\ files (started i m w) !! StateFilePath m = Some (marker i).
Proof.
  intros Hp Hw Hs. split; [|split].
  - apply (start_returns env i m w _ _ Hp).
    apply outcome_start_failed; assumption.
  - unfold started, written, log. simpl. rewrite <- app_assoc. reflexivity.
  - apply lookup_insert_eq.
Qed.

(** X3: a wait that returns has made one ticker, first of all, and has
    stopped it, last of all, whatever it returns: the calls between make
    and stop no ticker. *)
Theorem wait_releases_ticker env m w w' r :
  run env (waitForGaleraInit m) w ≈ Ret (w', r) ->
  exists cs,
    history w' = (history w ++ CallNewTicker (1 * Second) :: cs ++ [CallTickerStop])%list
    /\ calls is_NewTicker cs = 0
    /\ calls is_TickerStop cs = 0.
Proof.
  intros H. apply wait_returns_inv in H.
  destruct H as (errs & last & _ & Hd & ->).
  exists (flat_map (transient_calls m) errs ++ last)%list.
  split; [|split].
  - unfold log, wait_calls. simpl. rewrite <- app_assoc. reflexivity.
  - rewrite calls_app, (calls_transient _ _ 0) by reflexivity.
    destruct Hd; simpl; lia.
  - rewrite calls_app, (calls_transient _ _ 0) by reflexivity.
    destruct Hd; simpl; lia.
Qed.

(** X4: the wait only observes: when it returns the files are as they
    were, and it has written nothing and sent monit neither a start nor a
    stop command. *)
Theorem wait_only_observes env m w w' r :
  run env (waitForGaleraInit m) w ≈ Ret (w', r) ->
  files w' = files w
  /\ writes w' = writes w
  /\ starts w' = starts w
  /\ stops w' = stops w.
Proof.
  intros H. apply wait_returns_inv in H.
  destruct H as (errs & last & _ & Hd & ->).
  split; [reflexivity|]. repeat split; destruct Hd; count_wait.
Qed.

(** X5: the ticks of a wait that returns, counted: it has taken at least
    one tick, asked monit once on every tick, and logged an error on
    every tick but the last; it has asked the endpoint on every tick, or
    on every tick but the last, and on every tick when it returns
    [nil]. *)
Theorem wait_tick_accounting env m w w' r :
  run env (waitForGaleraInit m) w ≈ Ret (w', r) ->
  exists n,
    ticks w' = ticks w + S n
    /\ status_queries w' = status_queries w + S n
    /\ logged_errors w' = logged_errors w + n
    /\ (probes w' = probes w + n \/ probes w' = probes w + S n)
    /\ (r = None -> probes w' = probes w + S n).
Proof.
  intros H. apply wait_returns_inv in H.
  destruct H as (errs & last & _ & Hd & ->).
  exists (length errs).
  split; [destruct Hd; count_wait|].
  split; [destruct Hd; count_wait|].
  split; [destruct Hd; count_wait|].
  split.
  - destruct Hd; [left|left|right|right]; count_wait.
  - intros ->. inversion Hd; subst. count_wait.
Qed.

(** X6: a start operation reports success only after all three: the
    marker write succeeded, monit accepted the start command, and on the
    last tick monit reported the service running and the endpoint
    answered 200. *)
Theorem success_only_after_200 env i m w w' msg :
  run env (StartService i m) w ≈ Ret (w', (msg, None)) ->
  write_answer env i m w = WriteOk
  /\ start_answer env m w = None
  /\ exists n res,
       status_at env m w n = (ServiceRunning, None)
       /\ probe_at env m w n = inl res
       /\ StatusCode res = StatusOK
       /\ ticks w' = ticks w + S n.
Proof.
  intros H.
  destruct (permitted_dec i m) as [Hp|[-> Hg]].
  - apply (start_returns_inv env i m w w' _ Hp) in H.
    inversion H as [e rem Hw Hw' Hr|e Hw Hs Hw' Hr|errs last e Hw Hs Ht Hd Hw' Hr].
    destruct e as [e|]; [discriminate|].
    split; [exact Hw|]. split; [exact Hs|].
    inversion Hd as [| | |res Hok Hst Hpr Hlast]; subst.
    exists (length errs), res.
    split; [symmetry; exact Hst|]. split; [symmetry; exact Hpr|].
    split; [exact Hok | count_wait].
  - simpl StartService in H. rewrite (bootstrap_arbitrator_run env m w Hg) in H.
    apply eutt_inv_Ret in H. discriminate.
Qed.

(** X7: what a start operation or the stop operation returns is never
    half filled: either no error and the success message, or an error and
    the empty message. *)
Theorem outcome_never_partial env m w w' msg err :
  (forall i,
      run env (StartService i m) w ≈ Ret (w', (msg, err)) ->
      (err = None /\ msg = success_message i) \/ (err <> None /\ msg = ""))
  /\ (run env (StopService m) w ≈ Ret (w', (msg, err)) ->
      (err = None /\ msg = "stop successful") \/ (err <> None /\ msg = "")).
Proof.
  split.
  - intros i H.
    destruct (permitted_dec i m) as [Hp|[-> Hg]].
    + apply (start_returns_inv env i m w w' _ Hp) in H.
      inversion H as [e rem Hw Hw' Hr|e Hw Hs Hw' Hr|errs last e Hw Hs Ht Hd Hw' Hr].
      * right. split; [discriminate | reflexivity].
      * right. split; [discriminate | reflexivity].
      * destruct e as [e|]; simpl in Hr; injection Hr as <- <-.
        -- right. split; [discriminate | reflexivity].
        -- left. split; reflexivity.
    + simpl StartService in H. rewrite (bootstrap_arbitrator_run env m w Hg) in H.
      apply eutt_inv_Ret in H. injection H as _ <- <-.
      right. split; [discriminate | reflexivity].
  - intros H. unfold StopService in H. rewrite run_call in H.
    cbn [respond fst snd] in H.
    destruct (monit_Stop env (stops w) (ServiceName m)) as [e|];
      rewrite run_ret in H; apply eutt_inv_Ret in H; injection H as _ <- <-.
    + right. split; [discriminate | reflexivity].
    + left. split; reflexivity.
Qed.

(** X8: a start operation blocks for as long as the wait does: once the
    marker is written and the start command accepted, while every tick
    finds the service running and the endpoint unreachable the operation
    never returns. *)
Theorem start_blocks_while_unreachable env i m w :
  permitted i m ->
  write_answer env i m w = WriteOk ->
  start_answer env m w = None ->
  (forall k, exists e,
      status_at env m w k = (ServiceRunning, None) /\ probe_at env m w k = inr e) ->
  run env (StartService i m) w ≈ ITree.spin.
Proof.
  intros Hp Hw Hs Hticks.
  rewrite (start_run env i m w Hp), Hw, Hs.
  rewrite wait_diverges.
  - apply bind_spin.
  - intros k. rewrite status_at_started, probe_at_started. apply Hticks.
Qed.

(** The calls of a wait are addressed, whatever the intent. *)
Lemma wait_calls_addressed i m errs last st pr r :
  decisive m st pr last r ->
  Forall (addressed i m) (wait_calls m errs last).
Proof.
  intros Hd. unfold wait_calls. apply Forall_cons. split; [reflexivity|].
  apply Forall_app. split.
  - induction errs as [|e errs IH]; [apply Forall_nil_2|].
    change (flat_map (transient_calls m) (e :: errs))
      with (transient_calls m e ++ flat_map (transient_calls m) errs)%list.
    apply Forall_app. split; [|exact IH].
    unfold transient_calls. repeat (apply Forall_cons; split; [simpl; auto|]).
    apply Forall_nil_2.
  - apply Forall_app. split.
    + destruct Hd; unfold status_failed_calls, not_running_calls, response_calls;
        repeat (apply Forall_cons; split; [simpl; auto|]); apply Forall_nil_2.
    + apply Forall_cons. split; [exact I | apply Forall_nil_2].
Qed.

(** X9: every call a start operation has made when it returns is to the
    service, the state file and the readiness endpoint it was configured
    with: the one write is of the marker of the intent to the state file
    with the permissions 0777, the start command and the status queries
    name the service, the probes go to "http://" and the configured
    address with a timeout of one second, the ticker has a period of one
    second, and no stop command is sent. *)
Theorem start_calls_are_addressed env i m w w' r :
  run env (StartService i m) w ≈ Ret (w', r) ->
  exists cs,
    history w' = (history w ++ cs)%list /\ Forall (addressed i m) cs.
Proof.
  intros H.
  destruct (permitted_dec i m) as [Hp|[-> Hg]].
  - apply (start_returns_inv env i m w w' _ Hp) in H.
    destruct H as [e rem Hw|e Hw Hs|errs last e Hw Hs Ht Hd].
    + exists [marker_write i m]. split; [reflexivity|].
      apply Forall_cons. split; [|apply Forall_nil_2].
      simpl. auto.
    + exists [marker_write i m; CallStart (ServiceName m)]. split.
      * unfold started, written, log. simpl. rewrite <- app_assoc. reflexivity.
      * repeat (apply Forall_cons; split; [simpl; auto|]). apply Forall_nil_2.
    + exists (marker_write i m :: CallStart (ServiceName m) :: wait_calls m errs last).
      split.
      * unfold started, written, log. simpl. rewrite <- !app_assoc. reflexivity.
      * apply Forall_cons. split; [simpl; auto|].
        apply Forall_cons. split; [reflexivity|].
        eapply wait_calls_addressed, Hd.
  - simpl StartService in H. rewrite (bootstrap_arbitrator_run env m w Hg) in H.
    apply eutt_inv_Ret in H. injection H as <- _.
    exists []. split; [symmetry; apply app_nil_r | apply Forall_nil_2].
Qed.

(** X10: the errors of a start operation are the six failures and no
    other: the refusal of the arbitrator, the error of the write wrapped,
    the error of the start command as monit gave it, and the three
    failures of the wait, each for its cause. *)
Theorem start_errors_are_classified env i m w w' msg err :
  run env (StartService i m) w ≈ Ret (w', (msg, Some err)) ->
  (i = Bootstrap /\ ServiceName m = "garbd" /\ err = InvalidIntent)
  \/ (exists cause remains,
         write_answer env i m w = WriteErr cause remains
         /\ err = PersistenceFailure cause)
  \/ (write_answer env i m w = WriteOk /\ start_answer env m w = Some err)
  \/ (exists n status e,
         status_at env m w n = (status, Some e) /\ err = StatusQueryFailed m)
  \/ (exists n status,
         status_at env m w n = (status, None)
         /\ status <> ServiceRunning /\ err = ProcessNotRunning)
  \/ (exists n res,
         status_at env m w n = (ServiceRunning, None)
         /\ probe_at env m w n = inl res
         /\ StatusCode res <> StatusOK /\ err = ReadinessRejected res).
Proof.
  intros H.
  destruct (permitted_dec i m) as [Hp|[-> Hg]].
  - right. apply (start_returns_inv env i m w w' _ Hp) in H.
    inversion H as [e rem Hw Hw' Hr|e Hw Hs Hw' Hr|errs last e Hw Hs Ht Hd Hw' Hr].
    + left. exists e, rem. split; [exact Hw | reflexivity].
    + right. left. split; [exact Hw | exact Hs].
    + right. right. destruct e as [e|]; [|discriminate].
      simpl in Hr. injection Hr as _ ->.
      inversion Hd as [status e' probe Hst|status probe Hne Hst|res Hne Hst Hpr|];
        subst.
      * left. exists (length errs), status, e'. split; [symmetry; exact Hst | reflexivity].
      * right. left. exists (length errs), status.
        split; [symmetry; exact Hst|]. split; [exact Hne | reflexivity].
      * right. right. exists (length errs), res.
        split; [symmetry; exact Hst|]. split; [symmetry; exact Hpr|].
        split; [exact Hne | reflexivity].
  - left. simpl StartService in H. rewrite (bootstrap_arbitrator_run env m w Hg) in H.
    apply eutt_inv_Ret in H. injection H as _ _ <-.
    split; [reflexivity|]. split; [exact Hg | reflexivity].
Qed.

(** X11: in every wait that returns, whatever it returns, the readiness
    endpoint is asked on a tick only after monit has been asked on that
    tick. *)
Theorem status_is_asked_before_probe env m w w' r :
  run env (waitForGaleraInit m) w ≈ Ret (w', r) ->
  exists cs, history w' = (history w ++ cs)%list /\ probe_guarded false cs = true.
Proof.
  intros H. apply wait_returns_inv in H.
  destruct H as (errs & last & _ & Hd & ->).
  exists (wait_calls m errs last). split; [reflexivity|].
  eapply wait_calls_guarded, Hd.
Qed.

End ServiceManager.

(** ** The theorems at work on the node *)

(** The hypotheses on a script of ticks, tick by tick. *)
Ltac script_ticks :=
  intros k e Hk;
  repeat (destruct k as [|k]; simpl in Hk; try discriminate;
          try (injection Hk as <-; split; reflexivity)).

(** Joining while the endpoint comes up: one timeout, then 200. *)
Lemma join_comes_up :
  run comes_up (StartServiceJoin "running" mysql) fresh
  ≈ Ret (log (started Join mysql fresh)
           (wait_calls "running" mysql [timed_out] (response_calls "running" mysql ok200)),
         ("join cluster successful", None)).
Proof.
  apply (start_returns "running" comes_up Join mysql fresh); [intros H; discriminate|].
  apply (outcome_waited "running" comes_up Join mysql fresh [timed_out] _ None);
    try reflexivity; [script_ticks|].
  apply readiness_confirmed. reflexivity.
Qed.

(** Starting a single node that answers 503 after two refusals. *)
Lemma single_node_not_synced :
  run not_synced (StartServiceSingleNode "running" mysql) fresh
  ≈ Ret (log (started SingleNode mysql fresh)
           (wait_calls "running" mysql [refused; refused]
              (response_calls "running" mysql unavailable503)),
         ("", Some (ReadinessRejected unavailable503))).
Proof.
  apply (start_returns "running" not_synced SingleNode mysql fresh);
    [intros H; discriminate|].
  apply (outcome_waited "running" not_synced SingleNode mysql fresh [refused; refused] _
           (Some (ReadinessRejected unavailable503)));
    try reflexivity; [script_ticks|].
  apply readiness_rejected. discriminate.
Qed.

(** The arbitrator joining, and starting as a single node. *)
Lemma arbitrator_start i :
  i <> Bootstrap ->
  run is_up (StartService "running" i garbd) fresh
  ≈ Ret (log (started i garbd fresh)
           (wait_calls "running" garbd [] (response_calls "running" garbd ok200)),
         (success_message i, None)).
Proof.
  intros Hi.
  apply (start_returns "running" is_up i garbd fresh); [intros Hb; destruct (Hi Hb)|].
  apply (outcome_waited "running" is_up i garbd fresh [] _ None);
    try reflexivity; [script_ticks|].
  apply readiness_confirmed. reflexivity.
Qed.

(** Bootstrapping a data node that is up at once. *)
Lemma bootstrap_is_up :
  run is_up (StartServiceBootstrap "running" mysql) fresh
  ≈ Ret (log (started Bootstrap mysql fresh)
           (wait_calls "running" mysql [] (response_calls "running" mysql ok200)),
         ("cluster bootstrap successful", None)).
Proof.
  apply (start_returns "running" is_up Bootstrap mysql fresh); [intros _; discriminate|].
  apply (outcome_waited "running" is_up Bootstrap mysql fresh [] _ None);
    try reflexivity; [script_ticks|].
  apply readiness_confirmed. reflexivity.
Qed.

(** The same runs, by evaluation of the interaction trees. *)

Example join_comes_up_evaluated :
  result_within 40 (run comes_up (StartServiceJoin "running" mysql) fresh)
  = Some (log (started Join mysql fresh)
            (wait_calls "running" mysql [timed_out]
               (response_calls "running" mysql ok200)),
          ("join cluster successful", None)).
Proof. vm_compute. reflexivity. Qed.

Example join_comes_up_history :
  history (log (started Join mysql fresh)
             (wait_calls "running" mysql [timed_out]
                (response_calls "running" mysql ok200)))
  = [CallWriteFile "/var/vcap/store/mysql/state.txt" "CLUSTERED" 511;
     CallStart "mysql";
     CallNewTicker 1000000000;
     CallTick; CallStatus "mysql";
     CallInfo "check-monit-state" [("service", "mysql"); ("state", "running")];
     CallInfo "check-galera-init" [];
     CallGet 1000000000 "http://127.0.0.1:8114";
     CallError "check-galera-init" timed_out;
     CallTick; CallStatus "mysql";
     CallInfo "check-monit-state" [("service", "mysql"); ("state", "running")];
     CallInfo "check-galera-init" [];
     CallGet 1000000000 "http://127.0.0.1:8114";
     CallInfo "check-galera-init" [("status", "200 OK")];
     CallTickerStop].
Proof. reflexivity. Qed.

Example single_node_not_synced_evaluated :
  result_within 60 (run not_synced (StartServiceSingleNode "running" mysql) fresh)
  = Some (log (started SingleNode mysql fresh)
            (wait_calls "running" mysql [refused; refused]
               (response_calls "running" mysql unavailable503)),
          ("", Some (ReadinessRejected unavailable503))).
Proof. vm_compute. reflexivity. Qed.

Example crash_evaluated :
  result_within 40 (run crashes (waitForGaleraInit "running" mysql) fresh)
  = Some (log fresh
            (wait_calls "running" mysql [refused] (not_running_calls mysql "stopped")),
          Some ProcessNotRunning).
Proof. vm_compute. reflexivity. Qed.

Example monit_goes_away_evaluated :
  result_within 60 (run monit_goes_away (waitForGaleraInit "running" mysql) fresh)
  = Some (log fresh
            (wait_calls "running" mysql [refused; refused] (status_failed_calls mysql)),
          Some (StatusQueryFailed mysql)).
Proof. vm_compute. reflexivity. Qed.

Example read_only_disk_evaluated :
  result_within 10 (run read_only_disk (StartServiceBootstrap "running" mysql) fresh)
  = Some (write_failed Bootstrap mysql None fresh,
          ("", Some (PersistenceFailure disk_full))).
Proof. vm_compute. reflexivity. Qed.

Example arbitrator_bootstrap_evaluated :
  result_within 10 (run is_up (StartServiceBootstrap "running" garbd) fresh)
  = Some (fresh, ("", Some InvalidIntent)).
Proof. vm_compute. reflexivity. Qed.

Example never_listens_evaluated :
  result_within 500 (run never_listens (waitForGaleraInit "running" mysql) fresh) = None.
Proof. vm_compute. reflexivity. Qed.

Lemma connection_errors_are_retried_witness :
  run comes_up (waitForGaleraInit "running" mysql) fresh
  ≈ Ret (log fresh
           (wait_calls "running" mysql [timed_out] (response_calls "running" mysql ok200)),
         None)
  /\ ticks (log fresh
              (wait_calls "running" mysql [timed_out]
                 (response_calls "running" mysql ok200))) = 2
  /\ logged_errors (log fresh
                      (wait_calls "running" mysql [timed_out]
                         (response_calls "running" mysql ok200))) = 1
  /\ run comes_up (StartServiceJoin "running" mysql) fresh
     ≈ Ret (log (started Join mysql fresh)
              (wait_calls "running" mysql [timed_out]
                 (response_calls "running" mysql ok200)),
            ("join cluster successful", None))
  /\ ticks (log (started Join mysql fresh)
              (wait_calls "running" mysql [timed_out]
                 (response_calls "running" mysql ok200))) = 2.
Proof.
  destruct (connection_errors_are_retried "running" comes_up mysql fresh
              [timed_out] ok200) as (Hwait & Hticks & Hlogged & Hstart).
  - script_ticks.
  - reflexivity.
  - reflexivity.
  - reflexivity.
  - split; [exact Hwait|]. split; [exact Hticks|]. split; [exact Hlogged|].
    apply (Hstart Join).
    + intros H. discriminate.
    + reflexivity.
    + reflexivity.
Defined.

Lemma readiness_answer_ends_wait_witness :
  run not_synced (waitForGaleraInit "running" mysql) fresh
  ≈ Ret (log fresh
           (wait_calls "running" mysql [refused; refused]
              (response_calls "running" mysql unavailable503)),
         Some (ReadinessRejected unavailable503))
  /\ ticks (log fresh
              (wait_calls "running" mysql [refused; refused]
                 (response_calls "running" mysql unavailable503))) = 3.
Proof.
  apply (readiness_answer_ends_wait "running" not_synced mysql fresh
           [refused; refused] unavailable503).
  - script_ticks.
  - reflexivity.
  - reflexivity.
Defined.

Lemma not_running_ends_wait_witness :
  run crashes (waitForGaleraInit "running" mysql) fresh
  ≈ Ret (log fresh
           (wait_calls "running" mysql [refused] (not_running_calls mysql "stopped")),
         Some ProcessNotRunning)
  /\ probe_guarded false
       (wait_calls "running" mysql [refused] (not_running_calls mysql "stopped")) = true
  /\ ticks (log fresh
              (wait_calls "running" mysql [refused]
                 (not_running_calls mysql "stopped"))) = 2
  /\ status_queries (log fresh
                       (wait_calls "running" mysql [refused]
                          (not_running_calls mysql "stopped"))) = 2
  /\ probes (log fresh
               (wait_calls "running" mysql [refused]
                  (not_running_calls mysql "stopped"))) = 1.
Proof.
  apply (not_running_ends_wait "running" crashes mysql fresh [refused] "stopped").
  - script_ticks.
  - reflexivity.
  - discriminate.
Defined.

Lemma status_query_failure_ends_wait_witness :
  run monit_goes_away (waitForGaleraInit "running" mysql) fresh
  ≈ Ret (log fresh (wait_calls "running" mysql [refused; refused] (status_failed_calls mysql)),
         Some (StatusQueryFailed mysql))
  /\ ticks (log fresh
              (wait_calls "running" mysql [refused; refused]
                 (status_failed_calls mysql))) = 3
  /\ status_queries (log fresh
                       (wait_calls "running" mysql [refused; refused]
                          (status_failed_calls mysql))) = 3
  /\ probes (log fresh
               (wait_calls "running" mysql [refused; refused]
                  (status_failed_calls mysql))) = 2.
Proof.
  apply (status_query_failure_ends_wait "running" monit_goes_away mysql fresh
           [refused; refused] "" monit_down).
  - script_ticks.
  - reflexivity.
Defined.

Lemma marker_write_precedes_start_witness :
  (exists cs,
      history (log (started Join mysql fresh)
                 (wait_calls "running" mysql [timed_out]
                    (response_calls "running" mysql ok200)))
      = (history fresh ++ cs)%list
      /\ forall before n after,
           cs = (before ++ CallStart n :: after)%list ->
           In (marker_write Join mysql) before)
  /\ run read_only_disk (StartServiceBootstrap "running" mysql) fresh
     ≈ Ret (write_failed Bootstrap mysql None fresh,
            ("", Some (PersistenceFailure disk_full)))
  /\ starts (write_failed Bootstrap mysql None fresh) = 0
  /\ stops (write_failed Bootstrap mysql None fresh) = 0
  /\ status_queries (write_failed Bootstrap mysql None fresh) = 0.
Proof.
  split.
  - apply (proj1 (marker_write_precedes_start "running" comes_up Join mysql fresh)
             _ _ join_comes_up).
  - apply (proj2 (marker_write_precedes_start "running" read_only_disk Bootstrap
                    mysql fresh) disk_full None).
    + intros _. discriminate.
    + reflexivity.
Defined.

Lemma bootstrap_refused_for_arbitrator_witness :
  run is_up (StartServiceBootstrap "running" garbd) fresh
  ≈ Ret (fresh, ("", Some InvalidIntent))
  /\ (run is_up (StartServiceBootstrap "running" mysql) fresh
      ≈ Ret (log (started Bootstrap mysql fresh)
               (wait_calls "running" mysql [] (response_calls "running" mysql ok200)),
             ("cluster bootstrap successful", None))
      /\ files (log (started Bootstrap mysql fresh)
                  (wait_calls "running" mysql [] (response_calls "running" mysql ok200)))
         !! StateFilePath mysql = Some "NEEDS_BOOTSTRAP")
  /\ (run read_only_disk (StartServiceBootstrap "running" mysql) fresh
      ≈ Ret (write_failed Bootstrap mysql None fresh,
             ("", Some (PersistenceFailure disk_full)))
      /\ history (write_failed Bootstrap mysql None fresh)
         = (history fresh
            ++ [CallWriteFile (StateFilePath mysql) "NEEDS_BOOTSTRAP" state_file_perm])%list)
  /\ run start_refused (StartServiceBootstrap "running" mysql) fresh
     ≈ Ret (started Bootstrap mysql fresh, ("", Some monit_down)).
Proof.
  split; [|split; [|split]].
  - apply (proj1 (bootstrap_refused_for_arbitrator "running" is_up garbd fresh)).
    reflexivity.
  - destruct (proj2 (bootstrap_refused_for_arbitrator "running" is_up mysql fresh)
                ltac:(discriminate)) as (_ & Hok & _).
    destruct (Hok eq_refl) as (_ & _ & _ & Hwait).
    apply (Hwait eq_refl [] _ None); [script_ticks|].
    apply readiness_confirmed. reflexivity.
  - destruct (proj2 (bootstrap_refused_for_arbitrator "running" read_only_disk mysql
                       fresh) ltac:(discriminate)) as (Hfail & _).
    apply (Hfail disk_full None). reflexivity.
  - destruct (proj2 (bootstrap_refused_for_arbitrator "running" start_refused mysql
                       fresh) ltac:(discriminate)) as (_ & Hok & _).
    destruct (Hok eq_refl) as (_ & _ & Hstart & _).
    apply (Hstart monit_down). reflexivity.
Defined.

Lemma join_and_single_node_for_every_service_witness :
  (run is_up (StartServiceJoin "running" garbd) fresh
   ≈ Ret (log (started Join garbd fresh)
            (wait_calls "running" garbd [] (response_calls "running" garbd ok200)),
          ("join cluster successful", None))
   /\ files (log (started Join garbd fresh)
               (wait_calls "running" garbd [] (response_calls "running" garbd ok200)))
      !! StateFilePath garbd = Some "CLUSTERED")
  /\ (run comes_up (StartServiceJoin "running" mysql) fresh
      ≈ Ret (log (started Join mysql fresh)
               (wait_calls "running" mysql [timed_out]
                  (response_calls "running" mysql ok200)),
             ("join cluster successful", None))
      /\ files (log (started Join mysql fresh)
                  (wait_calls "running" mysql [timed_out]
                     (response_calls "running" mysql ok200)))
         !! StateFilePath mysql = Some "CLUSTERED")
  /\ (run is_up (StartServiceSingleNode "running" garbd) fresh
      ≈ Ret (log (started SingleNode garbd fresh)
               (wait_calls "running" garbd [] (response_calls "running" garbd ok200)),
             ("single node start successful", None))
      /\ files (log (started SingleNode garbd fresh)
                  (wait_calls "running" garbd [] (response_calls "running" garbd ok200)))
         !! StateFilePath garbd = Some "SINGLE_NODE")
  /\ (run not_synced (StartServiceSingleNode "running" mysql) fresh
      ≈ Ret (log (started SingleNode mysql fresh)
               (wait_calls "running" mysql [refused; refused]
                  (response_calls "running" mysql unavailable503)),
             ("", Some (ReadinessRejected unavailable503)))
      /\ files (log (started SingleNode mysql fresh)
                  (wait_calls "running" mysql [refused; refused]
                     (response_calls "running" mysql unavailable503)))
         !! StateFilePath mysql = Some "SINGLE_NODE")
  /\ (run read_only_disk (StartServiceJoin "running" mysql) fresh
      ≈ Ret (write_failed Join mysql None fresh,
             ("", Some (PersistenceFailure disk_full)))
      /\ history (write_failed Join mysql None fresh)
         = (history fresh
            ++ [CallWriteFile (StateFilePath mysql) "CLUSTERED" state_file_perm])%list).
Proof.
  split; [|split; [|split; [|split]]].
  - destruct (proj1 (join_and_single_node_for_every_service "running" is_up garbd fresh
                       fresh ("", None))) as (_ & Hok & _).
    destruct (Hok eq_refl) as (_ & _ & _ & Hwait).
    apply (Hwait eq_refl [] _ None); [script_ticks|].
    apply readiness_confirmed. reflexivity.
  - destruct (proj1 (join_and_single_node_for_every_service "running" comes_up mysql
                       fresh fresh ("", None))) as (_ & Hok & _).
    destruct (Hok eq_refl) as (_ & _ & _ & Hwait).
    apply (Hwait eq_refl [timed_out] _ None); [script_ticks|].
    apply readiness_confirmed. reflexivity.
  - destruct (proj2 (join_and_single_node_for_every_service "running" is_up garbd fresh
                       fresh ("", None))) as (_ & Hok & _).
    destruct (Hok eq_refl) as (_ & _ & _ & Hwait).
    apply (Hwait eq_refl [] _ None); [script_ticks|].
    apply readiness_confirmed. reflexivity.
  - destruct (proj2 (join_and_single_node_for_every_service "running" not_synced mysql
                       fresh fresh ("", None))) as (_ & Hok & _).
    destruct (Hok eq_refl) as (_ & _ & _ & Hwait).
    apply (Hwait eq_refl [refused; refused] _
             (Some (ReadinessRejected unavailable503))); [script_ticks|].
    apply readiness_rejected. discriminate.
  - destruct (proj1 (join_and_single_node_for_every_service "running" read_only_disk
                       mysql fresh fresh ("", None))) as (Hfail & _).
    apply (Hfail disk_full None). reflexivity.
Defined.

Lemma stop_only_stops_witness :
  run is_up (StopService mysql) fresh
  ≈ Ret (log fresh [CallStop "mysql"], ("stop successful", None))
  /\ run stop_refused (StopService mysql) fresh
     ≈ Ret (log fresh [CallStop "mysql"], ("", Some monit_down)).
Proof.
  split.
  - destruct (stop_only_stops is_up mysql fresh) as (r & Hrun & Hiff & _).
    rewrite (proj2 Hiff eq_refl) in Hrun. exact Hrun.
  - destruct (stop_only_stops stop_refused mysql fresh) as (r & Hrun & _ & Herr & _).
    rewrite (Herr monit_down eq_refl) in Hrun. exact Hrun.
Defined.

Lemma wait_has_no_deadline_witness :
  (run monit_goes_away (waitForGaleraInit "running" mysql) fresh
   ≈ Ret (log fresh
            (wait_calls "running" mysql [refused; refused] (status_failed_calls mysql)),
          Some (StatusQueryFailed mysql))
   /\ ticks (log fresh
               (wait_calls "running" mysql [refused; refused]
                  (status_failed_calls mysql))) = 3)
  /\ run never_listens (waitForGaleraInit "running" mysql) fresh ≈ ITree.spin.
Proof.
  split.
  - apply (proj1 (wait_has_no_deadline "running" monit_goes_away mysql fresh)
             [refused; refused]).
    + script_ticks.
    + apply status_query_failed.
  - apply (proj2 (proj2 (wait_has_no_deadline "running" never_listens mysql fresh))).
    intros k. exists refused. split; reflexivity.
Defined.

Lemma marker_survives_later_failure_witness :
  files (log (started SingleNode mysql fresh)
           (wait_calls "running" mysql [refused; refused]
              (response_calls "running" mysql unavailable503)))
  = <[StateFilePath mysql := "SINGLE_NODE"]> (files fresh)
  /\ files (log (started SingleNode mysql fresh)
              (wait_calls "running" mysql [refused; refused]
                 (response_calls "running" mysql unavailable503)))
     !! StateFilePath mysql = Some "SINGLE_NODE"
  /\ writes (log (started SingleNode mysql fresh)
               (wait_calls "running" mysql [refused; refused]
                  (response_calls "running" mysql unavailable503))) = 1.
Proof.
  apply (marker_survives_later_failure "running" not_synced SingleNode mysql fresh _
           "" (ReadinessRejected unavailable503)).
  - intros H. discriminate.
  - reflexivity.
  - exact single_node_not_synced.
Defined.


(** ** The further properties at work on the node *)

Lemma wait_comes_up :
  run comes_up (waitForGaleraInit "running" mysql) fresh
  ≈ Ret (log fresh
           (wait_calls "running" mysql [timed_out] (response_calls "running" mysql ok200)),
         None).
Proof.
  apply (wait_returns "running" comes_up mysql fresh [timed_out]); [script_ticks|].
  apply readiness_confirmed. reflexivity.
Qed.

Lemma stop_is_up :
  run is_up (StopService mysql) fresh
  ≈ Ret (log fresh [CallStop "mysql"], ("stop successful", None)).
Proof. apply (result_within_sound 10). vm_compute. reflexivity. Qed.

Lemma start_failure_skips_wait_witness :
  run start_refused (StartServiceBootstrap "running" mysql) fresh
  ≈ Ret (started Bootstrap mysql fresh, ("", Some monit_down))
  /\ history (started Bootstrap mysql fresh)
     = (history fresh ++ [marker_write Bootstrap mysql; CallStart (ServiceName mysql)])%list
  /\ files (started Bootstrap mysql fresh) !! StateFilePath mysql
     = Some "NEEDS_BOOTSTRAP".
Proof.
  apply (start_failure_skips_wait "running" start_refused Bootstrap mysql fresh monit_down).
  - intros _. discriminate.
  - reflexivity.
  - reflexivity.
Defined.

Lemma wait_releases_ticker_witness :
  exists cs,
    history (log fresh
               (wait_calls "running" mysql [timed_out]
                  (response_calls "running" mysql ok200)))
    = (history fresh ++ CallNewTicker (1 * Second) :: cs ++ [CallTickerStop])%list
    /\ calls is_NewTicker cs = 0
    /\ calls is_TickerStop cs = 0.
Proof.
  exact (wait_releases_ticker "running" comes_up mysql fresh _ _ wait_comes_up).
Defined.

Lemma wait_only_observes_witness :
  files (log fresh
           (wait_calls "running" mysql [timed_out] (response_calls "running" mysql ok200)))
  = files fresh
  /\ writes (log fresh
               (wait_calls "running" mysql [timed_out]
                  (response_calls "running" mysql ok200))) = writes fresh
  /\ starts (log fresh
               (wait_calls "running" mysql [timed_out]
                  (response_calls "running" mysql ok200))) = starts fresh
  /\ stops (log fresh
              (wait_calls "running" mysql [timed_out]
                 (response_calls "running" mysql ok200))) = stops fresh.
Proof.
  exact (wait_only_observes "running" comes_up mysql fresh _ _ wait_comes_up).
Defined.

Lemma wait_tick_accounting_witness :
  exists n,
    ticks (log fresh
             (wait_calls "running" mysql [timed_out]
                (response_calls "running" mysql ok200))) = ticks fresh + S n
    /\ status_queries (log fresh
                         (wait_calls "running" mysql [timed_out]
                            (response_calls "running" mysql ok200)))
       = status_queries fresh + S n
    /\ logged_errors (log fresh
                        (wait_calls "running" mysql [timed_out]
                           (response_calls "running" mysql ok200)))
       = logged_errors fresh + n
    /\ (probes (log fresh
                  (wait_calls "running" mysql [timed_out]
                     (response_calls "running" mysql ok200))) = probes fresh + n
        \/ probes (log fresh
                     (wait_calls "running" mysql [timed_out]
                        (response_calls "running" mysql ok200))) = probes fresh + S n)
    /\ (@None error = None ->
        probes (log fresh
                  (wait_calls "running" mysql [timed_out]
                     (response_calls "running" mysql ok200))) = probes fresh + S n).
Proof.
  exact (wait_tick_accounting "running" comes_up mysql fresh _ _ wait_comes_up).
Defined.

Lemma success_only_after_200_witness :
  write_answer comes_up Join mysql fresh = WriteOk
  /\ start_answer comes_up mysql fresh = None
  /\ exists n res,
       status_at comes_up mysql fresh n = ("running", None)
       /\ probe_at comes_up mysql fresh n = inl res
       /\ StatusCode res = StatusOK
       /\ ticks (log (started Join mysql fresh)
                   (wait_calls "running" mysql [timed_out]
                      (response_calls "running" mysql ok200)))
          = ticks fresh + S n.
Proof.
  exact (success_only_after_200 "running" comes_up Join mysql fresh _ _ join_comes_up).
Defined.

Lemma outcome_never_partial_witness :
  ((@None error = None /\ "join cluster successful" = success_message Join)
   \/ (@None error <> None /\ "join cluster successful" = ""))
  /\ ((@None error = None /\ "stop successful" = "stop successful")
      \/ (@None error <> None /\ "stop successful" = "")).
Proof.
  split.
  - exact (proj1 (outcome_never_partial "running" comes_up mysql fresh _ _ _)
             Join join_comes_up).
  - exact (proj2 (outcome_never_partial "running" is_up mysql fresh _ _ _) stop_is_up).
Defined.

Lemma start_blocks_while_unreachable_witness :
  run never_listens (StartServiceJoin "running" mysql) fresh ≈ ITree.spin.
Proof.
  apply (start_blocks_while_unreachable "running" never_listens Join mysql fresh).
  - intros H. discriminate.
  - reflexivity.
  - reflexivity.
  - intros k. exists refused. split; reflexivity.
Defined.

Lemma start_calls_are_addressed_witness :
  exists cs,
    history (log (started SingleNode mysql fresh)
               (wait_calls "running" mysql [refused; refused]
                  (response_calls "running" mysql unavailable503)))
    = (history fresh ++ cs)%list
    /\ Forall (addressed SingleNode mysql) cs.
Proof.
  exact (start_calls_are_addressed "running" not_synced SingleNode mysql fresh _ _
           single_node_not_synced).
Defined.

Lemma start_errors_are_classified_witness :
  (SingleNode = Bootstrap /\ ServiceName mysql = "garbd"
   /\ ReadinessRejected unavailable503 = InvalidIntent)
  \/ (exists cause remains,
         write_answer not_synced SingleNode mysql fresh = WriteErr cause remains
         /\ ReadinessRejected unavailable503 = PersistenceFailure cause)
  \/ (write_answer not_synced SingleNode mysql fresh = WriteOk
      /\ start_answer not_synced mysql fresh = Some (ReadinessRejected unavailable503))
  \/ (exists n status e,
         status_at not_synced mysql fresh n = (status, Some e)
         /\ ReadinessRejected unavailable503 = StatusQueryFailed mysql)
  \/ (exists n status,
         status_at not_synced mysql fresh n = (status, None)
         /\ status <> "running"
         /\ ReadinessRejected unavailable503 = ProcessNotRunning)
  \/ (exists n res,
         status_at not_synced mysql fresh n = ("running", None)
         /\ probe_at not_synced mysql fresh n = inl res
         /\ StatusCode res <> StatusOK
         /\ ReadinessRejected unavailable503 = ReadinessRejected res).
Proof.
  exact (start_errors_are_classified "running" not_synced SingleNode mysql fresh _ _ _
           single_node_not_synced).
Defined.

Lemma status_is_asked_before_probe_witness :
  exists cs,
    history (log fresh
               (wait_calls "running" mysql [timed_out]
                  (response_calls "running" mysql ok200)))
    = (history fresh ++ cs)%list
    /\ probe_guarded false cs = true.
Proof.
  exact (status_is_asked_before_probe "running" comes_up mysql fresh _ _ wait_comes_up).
Defined.
